(** * RAG Builder: the dashboard's data model, token storage, chat panel and
    forms, with the ingestion and retrieval core they talk to.

    The TypeScript sources are embedded shallowly: React state is a record
    threaded through the handlers, browser objects ([localStorage], the
    console) are explicit state, and JavaScript completions (normal return or
    a thrown value) are a small monad.  A JavaScript string is a Rocq
    string, one character for each of its code units; the builtins the code
    calls on strings ([String.prototype.trim], [Number]) are the fields of a
    class, so every theorem holds for whatever the engine computes. *)

From Stdlib Require Import Ascii String QArith Qcanon.
From stdpp Require Import base decidable option list strings gmap sorting.

Local Open Scope string_scope.
Local Open Scope list_scope.

(** ** JavaScript values used by the sources *)

(** A JavaScript number: the two infinities, NaN, or a finite double, which
    is a rational (kept canonical, so that [=] is numeric equality). *)
Inductive JsNumber : Type :=
| NaN
| PosInfinity
| NegInfinity
| Finite (q : Qc).

Global Instance JsNumber_eq_dec : EqDecision JsNumber.
Proof. solve_decision. Defined.

(** [Number.isInteger]. *)
Definition isInteger (n : JsNumber) : bool :=
  match n with
  | Finite q => bool_decide (Qden (this q) = 1%positive)
  | _ => false
  end.

(** [a < b] on numbers; any comparison with NaN is false. *)
Definition js_lt (a b : JsNumber) : bool :=
  match a, b with
  | NaN, _ | _, NaN => false
  | _, NegInfinity => false
  | NegInfinity, _ => true
  | PosInfinity, _ => false
  | Finite _, PosInfinity => true
  | Finite x, Finite y => bool_decide (x < y)%Qc
  end.

(** The integer a number denotes, if it denotes one. *)
Definition integer_value (n : JsNumber) : option Z :=
  match n with
  | Finite q => if bool_decide (Qden (this q) = 1%positive)
                then Some (Qnum (this q)) else None
  | _ => None
  end.

(** The builtins of the engine that the sources call on strings. *)
Class JsBuiltins : Type := {
  (** [String.prototype.trim] *)
  trim : string → string;
  (** [Number(value)] applied to a string, as [z.coerce.number()] does *)
  Number_ : string → JsNumber;
}.

(** Truthiness of a [string | null] value: [null] and [''] are falsy. *)
Definition truthy (v : option string) : bool :=
  match v with
  | Some s => negb (bool_decide (s = ""))
  | None => false
  end.

(** ** types.ts *)

Definition ISODateTimeString := string.

Inductive DocumentStatus : Type :=
| pending
| processing
| ready
| failed.

Global Instance DocumentStatus_eq_dec : EqDecision DocumentStatus.
Proof. solve_decision. Defined.

(** The string literal of each member of the union type. *)
Definition status_literal (s : DocumentStatus) : string :=
  match s with
  | pending => "pending"
  | processing => "processing"
  | ready => "ready"
  | failed => "failed"
  end.

Record ChatbotDocument : Type := {
  doc_id : string;
  file_name : string;
  mime_type : string;
  size_bytes : N;
  status : DocumentStatus;
  error : option string;
  doc_created_at : ISODateTimeString;
  doc_updated_at : ISODateTimeString;
}.

Inductive ConversationMessageRole : Type :=
| user
| assistant
| system
| tool.

Global Instance ConversationMessageRole_eq_dec :
  EqDecision ConversationMessageRole.
Proof. solve_decision. Defined.

Record ConversationMessage : Type := {
  msg_id : string;
  msg_role : ConversationMessageRole;
  msg_content : string;
  msg_created_at : ISODateTimeString;
}.

Record ChatContextChunk : Type := {
  chunk_id : string;
  document_id : string;
  document_name : option string;
  score : Qc;
  chunk_content : string;
}.

Record ChatResponsePayload : Type := {
  resp_conversation_id : string;
  reply : ConversationMessage;
  context : list ChatContextChunk;
  created_new_conversation : bool;
}.

Record CreateChatbotInput : Type := {
  input_name : string;
  input_model_provider : string;
  input_model_name : string;
  input_system_prompt : option string;
  input_temperature : option JsNumber;
  input_top_k : option JsNumber;
}.

(** A JSON value, for the wire form of a record. *)
Inductive JsonValue : Type :=
| JNull
| JString (s : string)
| JNumber (n : N).

(** The attributes of a [ChatbotDocument] object, key by key, as the type
    declares them. *)
Definition ChatbotDocument_entries (d : ChatbotDocument)
  : list (string * JsonValue) :=
  [ ("id", JString (doc_id d));
    ("file_name", JString (file_name d));
    ("mime_type", JString (mime_type d));
    ("size_bytes", JNumber (size_bytes d));
    ("status", JString (status_literal (status d)));
    ("error", from_option JString JNull (error d));
    ("created_at", JString (doc_created_at d));
    ("updated_at", JString (doc_updated_at d)) ].

(** The attributes that section 3 of the specification gives a Document. *)
Inductive DocumentAttribute : Type :=
| AttrId
| AttrTenantId
| AttrFileName
| AttrMimeType
| AttrSize
| AttrStatus
| AttrError
| AttrTimestamps.

Global Instance DocumentAttribute_eq_dec : EqDecision DocumentAttribute.
Proof. solve_decision. Defined.

(** The attribute that a key stands for; the tenant of the dashboard is the
    chatbot. *)
Definition attribute_of_key (key : string) : option DocumentAttribute :=
  if bool_decide (key = "id") then Some AttrId
  else if bool_decide (key ∈ ["tenant_id"; "tenant"; "chatbot_id"; "chatbot"])
  then Some AttrTenantId
  else if bool_decide (key = "file_name") then Some AttrFileName
  else if bool_decide (key = "mime_type") then Some AttrMimeType
  else if bool_decide (key = "size_bytes") then Some AttrSize
  else if bool_decide (key = "status") then Some AttrStatus
  else if bool_decide (key = "error") then Some AttrError
  else if bool_decide (key ∈ ["created_at"; "updated_at"])
  then Some AttrTimestamps
  else None.

(** A record carries an attribute when one of its keys stands for it. *)
Definition carries (d : ChatbotDocument) (a : DocumentAttribute) : Prop :=
  ∃ key value, (key, value) ∈ ChatbotDocument_entries d
               ∧ attribute_of_key key = Some a.

(** ** lib/api.ts: the stored token *)

Module Api.

Definition TOKEN_STORAGE_KEY : string := "ragbuilder.authToken".

(** A call on [localStorage]. *)
Inductive StorageCall : Type :=
| GetItem (key : string)
| SetItem (key value : string)
| RemoveItem (key : string).

(** The browser state the module touches: the items of [localStorage], the
    calls on which the browser raises (storage disabled, quota exceeded), and
    the console's warnings. *)
Record Browser : Type := {
  items : gmap string string;
  raises : StorageCall → bool;
  warnings : list string;
}.

(** How a JavaScript computation completes. *)
Inductive Completion (A : Type) : Type :=
| Normal (a : A)
| Throw (exception : string).
Arguments Normal {A} a.
Arguments Throw {A} exception.

(** Computations over the browser state. *)
Definition JS (A : Type) : Type := Browser → Completion A * Browser.

Definition ret {A} (a : A) : JS A := λ b, (Normal a, b).

Definition bind {A B} (m : JS A) (k : A → JS B) : JS B :=
  λ b, match m b with
       | (Normal a, b') => k a b'
       | (Throw e, b') => (Throw e, b')
       end.

(** [try { body } catch (error) { handler(error) }] *)
Definition try_catch {A} (body : JS A) (handler : string → JS A) : JS A :=
  λ b, match body b with
       | (Normal a, b') => (Normal a, b')
       | (Throw e, b') => handler e b'
       end.

Definition with_items (m : gmap string string) (b : Browser) : Browser :=
  {| items := m; raises := raises b; warnings := warnings b |}.

Definition localStorage_getItem (key : string) : JS (option string) :=
  λ b, if raises b (GetItem key) then (Throw "DOMException", b)
       else (Normal (items b !! key), b).

Definition localStorage_setItem (key value : string) : JS unit :=
  λ b, if raises b (SetItem key value) then (Throw "DOMException", b)
       else (Normal (), with_items (<[key := value]> (items b)) b).

Definition localStorage_removeItem (key : string) : JS unit :=
  λ b, if raises b (RemoveItem key) then (Throw "DOMException", b)
       else (Normal (), with_items (delete key (items b)) b).

Definition console_warn (text : string) : JS unit :=
  λ b, (Normal (),
        {| items := items b; raises := raises b;
           warnings := warnings b ++ [text] |}).

Definition getStoredToken : JS (option string) :=
  try_catch
    (localStorage_getItem TOKEN_STORAGE_KEY)
    (λ _, ret None).

Definition setStoredToken (token : option string) : JS unit :=
  try_catch
    (if negb (truthy token)
     then localStorage_removeItem TOKEN_STORAGE_KEY
     else localStorage_setItem TOKEN_STORAGE_KEY (default "" token))
    (λ _, console_warn "Unable to persist auth token").

(** A rejection value, as [getErrorMessage] tells them apart. *)
Inductive JsError : Type :=
| AxiosError (detail : option string) (message : string)
| PlainError (message : string)
| OtherValue.

(** [a || b] on strings: [a] when it is not empty. *)
Definition or_else (a b : string) : string :=
  if bool_decide (a = "") then b else a.

Definition getErrorMessage (error : JsError) : string :=
  match error with
  | AxiosError detail message =>
      or_else (default "" detail)
        (or_else message "Request failed — please try again.")
  | PlainError message => message
  | OtherValue => "Something went wrong."
  end.

End Api.

(** ** context/AuthContext.tsx *)

Module AuthContext.
Import Api.

Section provider.
Context `{JsBuiltins}.

(** The provider's state is the token; its setters also write the storage. *)
Definition setToken (value : string) : JS (option string) :=
  let next := trim value in
  if negb (truthy (Some next))
  then bind (setStoredToken None) (λ _, ret None)
  else bind (setStoredToken (Some next)) (λ _, ret (Some next)).

Definition clearToken : JS (option string) :=
  bind (setStoredToken None) (λ _, ret None).

End provider.
End AuthContext.

(** ** lib/chat.ts and components/ChatPanel.tsx *)

Record ChatRequestPayload : Type := {
  message : string;
  conversation_id : option string;
  top_k : option JsNumber;
}.

Module ChatPanel.
Import Api.

(** [ConversationMessage & { pending?: boolean }] *)
Record ChatLogMessage : Type := {
  id : string;
  role : ConversationMessageRole;
  content : string;
  created_at : ISODateTimeString;
  pending_flag : option bool;
}.

Definition mapResponseMessage (m : ConversationMessage) : ChatLogMessage :=
  {| id := msg_id m; role := msg_role m; content := msg_content m;
     created_at := msg_created_at m; pending_flag := Some false |}.

(** The component's state: its six [useState] cells, and the mutation of
    [useMutation].  While a request is in flight the mutation holds the
    [localId] that the callbacks passed to [mutate] have captured. *)
Record PanelState : Type := {
  conversationId : option string;
  messages : list ChatLogMessage;
  contextChunks : list ChatContextChunk;
  inputValue : string;
  chatError : option string;
  pendingMessageId : option string;
  inFlight : option string;
}.

Definition initialState : PanelState :=
  {| conversationId := None; messages := []; contextChunks := [];
     inputValue := ""; chatError := None; pendingMessageId := None;
     inFlight := None |}.

(** [chatMutation.isPending] *)
Definition isPending (st : PanelState) : bool :=
  bool_decide (is_Some (inFlight st)).

Section handlers.
Context `{JsBuiltins}.

(** [handleSubmit]; [localId] is what [createLocalId()] returned and [now]
    is [new Date().toISOString()].  The second component is the payload handed
    to [chatMutation.mutate], if any. *)
Definition handleSubmit (st : PanelState) (localId : string)
    (now : ISODateTimeString) : PanelState * option ChatRequestPayload :=
  let trimmed := trim (inputValue st) in
  if bool_decide (trimmed = "") || isPending st then (st, None)
  else
    let userMessage :=
      {| id := localId; role := user; content := trimmed;
         created_at := now; pending_flag := Some true |} in
    ({| conversationId := conversationId st;
        messages := messages st ++ [userMessage];
        contextChunks := contextChunks st;
        inputValue := "";
        chatError := None;
        pendingMessageId := Some localId;
        inFlight := Some localId |},
     Some {| message := trimmed;
             conversation_id := conversationId st;
             top_k := None |}).

End handlers.

(** The [onSuccess] callback of the request that captured [localId]. *)
Definition onSuccess (localId : string) (response : ChatResponsePayload)
    (st : PanelState) : PanelState :=
  let updated :=
    (λ m : ChatLogMessage,
       if bool_decide (id m = localId)
       then {| id := id m; role := role m; content := content m;
               created_at := created_at m; pending_flag := Some false |}
       else m) <$> messages st in
  {| conversationId := Some (resp_conversation_id response);
     messages := updated ++ [mapResponseMessage (reply response)];
     contextChunks := context response;
     inputValue := inputValue st;
     chatError := chatError st;
     pendingMessageId := None;
     inFlight := inFlight st |}.

(** The [onError] callback of the request that captured [localId]. *)
Definition onError (localId : string) (error : JsError)
    (st : PanelState) : PanelState :=
  {| conversationId := conversationId st;
     messages := filter (λ m, id m ≠ localId) (messages st);
     contextChunks := contextChunks st;
     inputValue := inputValue st;
     chatError := Some (getErrorMessage error);
     pendingMessageId := None;
     inFlight := inFlight st |}.

Definition handleReset (st : PanelState) : PanelState :=
  {| conversationId := None; messages := []; contextChunks := [];
     inputValue := inputValue st; chatError := None;
     pendingMessageId := None; inFlight := inFlight st |}.

(** The textarea's [onChange]. *)
Definition setInputValue (value : string) (st : PanelState) : PanelState :=
  {| conversationId := conversationId st; messages := messages st;
     contextChunks := contextChunks st; inputValue := value;
     chatError := chatError st; pendingMessageId := pendingMessageId st;
     inFlight := inFlight st |}.

(** The mutation leaves its pending state when the request settles. *)
Definition settled (st : PanelState) : PanelState :=
  {| conversationId := conversationId st; messages := messages st;
     contextChunks := contextChunks st; inputValue := inputValue st;
     chatError := chatError st; pendingMessageId := pendingMessageId st;
     inFlight := None |}.

(** What happens to a mounted panel. *)
Inductive Event : Type :=
| Submit (localId : string) (now : ISODateTimeString)
| Resolved (response : ChatResponsePayload)
| Rejected (error : JsError)
| ResetPressed
| Typed (value : string).

Section machine.
Context `{JsBuiltins}.

(** One event: the next state and the request sent to [chatWithBot], if the
    event sends one.  A request settles only while one is in flight, and its
    callbacks run with the [localId] they captured. *)
Definition step (st : PanelState) (ev : Event)
  : PanelState * option ChatRequestPayload :=
  match ev with
  | Submit localId now => handleSubmit st localId now
  | Resolved response =>
      match inFlight st with
      | Some localId => (settled (onSuccess localId response st), None)
      | None => (st, None)
      end
  | Rejected error =>
      match inFlight st with
      | Some localId => (settled (onError localId error st), None)
      | None => (st, None)
      end
  | ResetPressed => (handleReset st, None)
  | Typed value => (setInputValue value st, None)
  end.

(** A run from a state, with the requests it sent, oldest first. *)
Fixpoint run (st : PanelState) (evs : list Event)
  : PanelState * list ChatRequestPayload :=
  match evs with
  | [] => (st, [])
  | ev :: evs' =>
      let '(st', req) := step st ev in
      let '(st'', reqs) := run st' evs' in
      (st'', option_list req ++ reqs)
  end.

End machine.

(** A history in which a response or a failure comes only for a request in
    flight, and the conversation is reset only while none is. *)
Fixpoint orderly `{JsBuiltins} (st : PanelState) (evs : list Event) : bool :=
  match evs with
  | [] => true
  | ev :: evs' =>
      match ev with
      | Resolved _ | Rejected _ => isPending st
      | ResetPressed => negb (isPending st)
      | _ => true
      end
      && orderly (fst (step st ev)) evs'
  end.

(** The events that neither settle a request nor reset the conversation:
    presses of Send and typing. *)
Definition quiet (ev : Event) : bool :=
  match ev with
  | Submit _ _ | Typed _ => true
  | _ => false
  end.

(** *** What the component renders *)

Record MessageView : Type := {
  mv_key : string;
  mv_role : string;
  mv_text : string;
  mv_sending : bool;
}.

Record ContextItemView : Type := {
  cv_key : string;
  cv_title : string;
  (** shown as [Score <score.toFixed(3)>] *)
  cv_score : Qc;
  cv_text : string;
}.

Record PanelView : Type := {
  reset_disabled : bool;
  empty_hint : bool;
  message_list : list MessageView;
  generating : bool;
  context_section : option (list ContextItemView);
  error_banner : option string;
  textarea_disabled : bool;
  submit_disabled : bool;
}.

Definition renderMessage (chatbotName : string) (m : ChatLogMessage)
  : MessageView :=
  {| mv_key := id m;
     mv_role := if bool_decide (role m = assistant) then chatbotName
                else "You";
     mv_text := content m;
     mv_sending := bool_decide (pending_flag m = Some true) |}.

Definition renderChunk (chunk : ChatContextChunk) : ContextItemView :=
  {| cv_key := chunk_id chunk;
     cv_title := default (document_id chunk) (document_name chunk);
     cv_score := score chunk;
     cv_text := chunk_content chunk |}.

Definition render `{JsBuiltins} (chatbotName : string) (st : PanelState)
  : PanelView :=
  {| reset_disabled := bool_decide (length (messages st) = 0);
     empty_hint := bool_decide (length (messages st) = 0);
     message_list := renderMessage chatbotName <$> messages st;
     generating :=
       isPending st && bool_decide (is_Some (pendingMessageId st));
     context_section :=
       if bool_decide (0 < length (contextChunks st))
       then Some (renderChunk <$> contextChunks st) else None;
     error_banner :=
       if truthy (chatError st) then chatError st else None;
     textarea_disabled := isPending st;
     submit_disabled :=
       isPending st || bool_decide (trim (inputValue st) = "") |}.

(** What the context section shows: the key and the score of each item, in
    the order of display. *)
Definition displayed `{JsBuiltins} (chatbotName : string) (st : PanelState)
  : list (string * Qc) :=
  (λ item, (cv_key item, cv_score item))
    <$> default [] (context_section (render chatbotName st)).

End ChatPanel.

(** ** routes/ChatbotDetailPage.tsx: the documents table *)

Module ChatbotDetailPage.

(** The own properties of the [documentStatusLabels] object. *)
Definition documentStatusLabels : gmap string string :=
  list_to_map
    [ ("pending", "Pending");
      ("processing", "Processing");
      ("ready", "Ready");
      ("failed", "Failed") ].

(** [documentStatusLabels[document.status] ?? document.status] *)
Definition statusLabel (s : DocumentStatus) : string :=
  default (status_literal s) (documentStatusLabels !! status_literal s).

(** One row of the table; the size and the date are kept as the record has
    them, the formatting functions being left out. *)
Record DocumentRow : Type := {
  row_key : string;
  row_name : string;
  row_error : option string;
  row_size : N;
  row_status_class : string;
  row_status_label : string;
  row_updated : ISODateTimeString;
}.

Definition renderRow (document : ChatbotDocument) : DocumentRow :=
  {| row_key := doc_id document;
     row_name := file_name document;
     row_error := if truthy (error document) then error document else None;
     row_size := size_bytes document;
     row_status_class := "status status--" ++ status_literal (status document);
     row_status_label := statusLabel (status document);
     row_updated := doc_updated_at document |}.

Definition renderTable (documents : list ChatbotDocument)
  : list DocumentRow :=
  renderRow <$> documents.

End ChatbotDetailPage.

(** ** routes/ChatbotsPage.tsx: the creation form *)

Module ChatbotsPage.

(** The message of a validation issue: the one the schema gives, or the
    library's own for the failed check. *)
Inductive IssueMessage : Type :=
| Custom (text : string)
| InvalidType
| NotInteger
| TooSmall
| TooBig.

Record FormState : Type := {
  name : string;
  model_provider : string;
  model_name : string;
  system_prompt : string;
  temperature : string;
  form_top_k : string;
}.

Definition defaultFormState : FormState :=
  {| name := ""; model_provider := "gemini";
     model_name := "models/gemini-2.5-flash"; system_prompt := "";
     temperature := "0.2"; form_top_k := "4" |}.

(** [Record<keyof FormState, string | undefined>] *)
Record FormErrors : Type := {
  err_name : option IssueMessage;
  err_model_provider : option IssueMessage;
  err_model_name : option IssueMessage;
  err_system_prompt : option IssueMessage;
  err_temperature : option IssueMessage;
  err_top_k : option IssueMessage;
}.

Definition noErrors : FormErrors :=
  {| err_name := None; err_model_provider := None; err_model_name := None;
     err_system_prompt := None; err_temperature := None; err_top_k := None |}.

(** [parsed.error.flatten().fieldErrors]: the issues of each field, in the
    order of its checks. *)
Record FieldErrors : Type := {
  issues_name : list IssueMessage;
  issues_model_provider : list IssueMessage;
  issues_model_name : list IssueMessage;
  issues_system_prompt : list IssueMessage;
  issues_temperature : list IssueMessage;
  issues_top_k : list IssueMessage;
}.

(** The input of [safeParse]. *)
Record RawForm : Type := {
  raw_name : string;
  raw_model_provider : string;
  raw_model_name : string;
  raw_system_prompt : option string;
  raw_temperature : string;
  raw_top_k : string;
}.

Record ParsedForm : Type := {
  data_name : string;
  data_model_provider : string;
  data_model_name : string;
  data_system_prompt : option string;
  data_temperature : JsNumber;
  data_top_k : JsNumber;
}.

(** [z.string().min(n, message)] *)
Definition string_min (n : nat) (text : string) (value : string)
  : list IssueMessage :=
  if bool_decide (String.length value < n)%nat then [Custom text] else [].

(** [z.string().max(n, message).optional()] *)
Definition optional_string_max (n : nat) (text : string)
    (value : option string) : list IssueMessage :=
  match value with
  | None => []
  | Some s => if bool_decide (n < String.length s)%nat then [Custom text]
              else []
  end.

Definition of_Z (k : Z) : JsNumber := Finite (Qc_of_Z k).

(** A number schema: NaN is no number and ends the parse of the field; the
    other checks all run, each adding its issue. *)
Definition number_checks (integral : bool) (lo hi : Z) (n : JsNumber)
  : list IssueMessage :=
  match n with
  | NaN => [InvalidType]
  | _ =>
      (if integral && negb (isInteger n) then [NotInteger] else [])
      ++ (if js_lt n (of_Z lo) then [TooSmall] else [])
      ++ (if js_lt (of_Z hi) n then [TooBig] else [])
  end.

Section schema.
Context `{JsBuiltins}.

(** [chatbotFormSchema.safeParse]: the data, or the issues by field. *)
Definition chatbotFormSchema (raw : RawForm) : FieldErrors + ParsedForm :=
  let temperature_n := Number_ (raw_temperature raw) in
  let top_k_n := Number_ (raw_top_k raw) in
  let errs :=
    {| issues_name := string_min 1 "Name is required" (raw_name raw);
       issues_model_provider :=
         string_min 1 "Provider is required" (raw_model_provider raw);
       issues_model_name :=
         string_min 1 "Model is required" (raw_model_name raw);
       issues_system_prompt :=
         optional_string_max 5000 "Prompt is too long"
           (raw_system_prompt raw);
       issues_temperature := number_checks false 0 1 temperature_n;
       issues_top_k := number_checks true 1 20 top_k_n |} in
  match issues_name errs, issues_model_provider errs, issues_model_name errs,
        issues_system_prompt errs, issues_temperature errs,
        issues_top_k errs with
  | [], [], [], [], [], [] =>
      inr {| data_name := raw_name raw;
             data_model_provider := raw_model_provider raw;
             data_model_name := raw_model_name raw;
             data_system_prompt := raw_system_prompt raw;
             data_temperature := temperature_n;
             data_top_k := top_k_n |}
  | _, _, _, _, _, _ => inl errs
  end.

(** The state of the page that the form touches. *)
Record PageState : Type := {
  formState : FormState;
  formErrors : FormErrors;
  serverError : option string;
}.

(** [handleSubmit]: the next state and the payload with which
    [createMutation.mutate], hence [createChatbot], is called, if it is. *)
Definition handleSubmit (st : PageState)
  : PageState * option CreateChatbotInput :=
  let form := formState st in
  let parsed :=
    chatbotFormSchema
      {| raw_name := name form;
         raw_model_provider := model_provider form;
         raw_model_name := model_name form;
         raw_system_prompt :=
           if truthy (Some (system_prompt form))
           then Some (system_prompt form) else None;
         raw_temperature := temperature form;
         raw_top_k := form_top_k form |} in
  match parsed with
  | inl issues =>
      ({| formState := form;
          formErrors :=
            {| err_name := head (issues_name issues);
               err_model_provider := head (issues_model_provider issues);
               err_model_name := head (issues_model_name issues);
               err_system_prompt := head (issues_system_prompt issues);
               err_temperature := head (issues_temperature issues);
               err_top_k := head (issues_top_k issues) |};
          serverError := None |},
       None)
  | inr data =>
      let prompt := trim <$> data_system_prompt data in
      ({| formState := form; formErrors := formErrors st;
          serverError := None |},
       Some {| input_name := data_name data;
               input_model_provider := data_model_provider data;
               input_model_name := data_model_name data;
               input_system_prompt :=
                 if truthy prompt then prompt else None;
               input_temperature := Some (data_temperature data);
               input_top_k := Some (data_top_k data) |})
  end.

End schema.

(** The submitted [top_k] reads as an integer between 1 and 20. *)
Definition top_k_in_range `{JsBuiltins} (st : PageState) : Prop :=
  ∃ k : Z, integer_value (Number_ (form_top_k (formState st))) = Some k
           ∧ (1 ≤ k ≤ 20)%Z.

End ChatbotsPage.

(** ** The ingestion and retrieval core

    The backend and the worker are not among the sources; the dashboard only
    calls them.  This module follows sections 3 and 4 of the specification. *)

Module Core.

(** Modelled from the spec: an embedding vector of section 3 (missing from
    the sources), with rational components. *)
Definition Vector := list Qc.

(** Modelled from the spec: the Document of section 3 (the backend's record
    is missing from the sources): one uploaded file within a tenant. *)
Record Document : Type := {
  tenant_id : string;
  d_file_name : string;
  d_mime_type : string;
  d_size : N;
  d_status : DocumentStatus;
  d_error : option string;
  d_created_at : ISODateTimeString;
  d_updated_at : ISODateTimeString;
}.

(** Modelled from the spec: the Chunk of section 3 (missing from the
    sources): a span of text of one document, with its sequence index. *)
Record Chunk : Type := {
  c_document : string;
  c_sequence : nat;
  c_text : string;
}.

(** Modelled from the spec: an entry of the Vector Index of section 4.4
    (missing from the sources): the vector of a chunk, with the document the
    chunk belongs to, which [removeByDocument] needs. *)
Record IndexEntry : Type := {
  e_document : string;
  e_vector : Vector;
}.

(** Modelled from the spec: the state the core works on (missing from the
    sources): the persisted documents, chunks and embeddings, and the Index
    Registry of section 4.6, one index per tenant, each a map from chunk id
    to entry. *)
Record System : Type := {
  documents : gmap string Document;
  chunks : gmap string Chunk;
  embeddings : gmap string Vector;
  registry : gmap string (gmap string IndexEntry);
}.

(** Modelled from the spec: the system before the first upload (missing
    from the sources). *)
Definition emptySystem : System :=
  {| documents := ∅; chunks := ∅; embeddings := ∅; registry := ∅ |}.

(** Modelled from the spec: [add(chunkId, vector)] of section 4.4 (the
    index is missing from the sources): inserts or replaces the vector of a
    chunk id. *)
Definition add (chunkId document : string) (vector : Vector)
    (index : gmap string IndexEntry) : gmap string IndexEntry :=
  <[chunkId := {| e_document := document; e_vector := vector |}]> index.

(** Modelled from the spec: [removeByDocument(documentId)] of section 4.4
    (missing from the sources): removes every vector of that document's
    chunks. *)
Definition removeByDocument (document : string)
    (index : gmap string IndexEntry) : gmap string IndexEntry :=
  filter (λ entry, e_document entry.2 ≠ document) index.

(** Modelled from the spec: the ranking of section 4.4 (missing from the
    sources): a result comes no later than another when its score is
    higher, or the scores tie and its chunk id is not greater. *)
Definition ranks_before (a b : string * Qc) : Prop :=
  (b.2 < a.2)%Qc ∨ (a.2 = b.2 ∧ String.le a.1 b.1).

Global Instance ranks_before_dec : RelDecision ranks_before.
Proof. intros a b. unfold ranks_before. apply _. Defined.

(** Modelled from the spec: the largest [k] the Retrieval Engine serves,
    section 4.7 (missing from the sources). *)
Definition MAX_K : nat := 20.

Section retrieval.

(** Modelled from the spec: what the retrieval depends on and the sources
    do not have: the metric of the index (the specification asks for cosine
    similarity), the Embedding Client's vector for a query text (a batch of
    one), and the configured default of [k]. *)
Variable similarity : Vector → Vector → Qc.
Variable embed : string → Vector.
Variable default_k : nat.

(** Modelled from the spec: the scores of all the vectors of an index
    against a query vector (missing from the sources). *)
Definition scores (index : gmap string IndexEntry) (vector : Vector)
  : list (string * Qc) :=
  (λ entry, (entry.1, similarity vector (e_vector entry.2)))
    <$> map_to_list index.

(** Modelled from the spec: [query(vector, k)] of section 4.4 (missing from
    the sources): the [k] best (chunk id, score) pairs, best first; fewer
    when the index holds fewer. *)
Definition query (index : gmap string IndexEntry) (vector : Vector)
    (k : nat) : list (string * Qc) :=
  take k (merge_sort ranks_before (scores index vector)).

(** Modelled from the spec: the registry's lookup of section 4.6 (missing
    from the sources): a tenant's index exists from its first reference,
    empty. *)
Definition tenantIndex (sys : System) (tenant : string)
  : gmap string IndexEntry :=
  default ∅ (registry sys !! tenant).

(** Modelled from the spec: the join of section 4.7 (missing from the
    sources): a chunk id resolved to its text and its document's name. *)
Definition resolve (sys : System) (hit : string * Qc)
  : option ChatContextChunk :=
  chunk ← chunks sys !! hit.1;
  Some {| chunk_id := hit.1;
          document_id := c_document chunk;
          document_name := d_file_name <$> documents sys !! c_document chunk;
          score := hit.2;
          chunk_content := c_text chunk |}.

(** Modelled from the spec: the [k] in force, section 4.7 (missing from the
    sources): the configured default when the caller gives none, and never
    above the maximum. *)
Definition effective_k (k : option nat) : nat :=
  default default_k k `min` MAX_K.

(** Modelled from the spec: [retrieve(tenantId, queryText, k)] of section
    4.7 (the Retrieval Engine is missing from the sources). *)
Definition retrieve (sys : System) (tenant queryText : string)
    (k : option nat) : list ChatContextChunk :=
  omap (resolve sys)
    (query (tenantIndex sys tenant) (embed queryText) (effective_k k)).

End retrieval.

(** Modelled from the spec: what the Job Controller of section 4.5 and its
    surroundings do to a document (the controller is missing from the
    sources).  A committed job brings its chunks: id, text and vector; a
    job fails with the error string to record. *)
Inductive JobEvent : Type :=
| Upload (document tenant file mime : string) (size : N)
         (now : ISODateTimeString)
| Claim (document : string) (now : ISODateTimeString)
| Reclaim (document : string) (now : ISODateTimeString)
| Commit (document : string) (parts : list (string * (string * Vector)))
         (now : ISODateTimeString)
| Fail (document cause : string) (now : ISODateTimeString)
| Resubmit (document : string) (now : ISODateTimeString)
| Delete (document : string).

(** Modelled from the spec: a status transition that records the status
    together with its error (missing from the sources). *)
Definition transition (status : DocumentStatus) (err : option string)
    (now : ISODateTimeString) (d : Document) : Document :=
  {| tenant_id := tenant_id d; d_file_name := d_file_name d;
     d_mime_type := d_mime_type d; d_size := d_size d;
     d_status := status; d_error := err;
     d_created_at := d_created_at d; d_updated_at := now |}.

(** Modelled from the spec: the invalidation of section 4.5 (missing from
    the sources): all chunks, embeddings and index entries of a document
    go. *)
Definition invalidate (document : string) (sys : System)
  : gmap string Chunk * gmap string Vector
    * gmap string (gmap string IndexEntry) :=
  let gone := filter (λ c, c_document c.2 = document) (chunks sys) in
  (filter (λ c, c_document c.2 ≠ document) (chunks sys),
   filter (λ e, gone !! e.1 = None) (embeddings sys),
   removeByDocument document <$> registry sys).

(** Modelled from the spec: the chunks of a committed job, numbered from 0
    (missing from the sources). *)
Fixpoint persistChunks (document : string) (sequence : nat)
    (parts : list (string * (string * Vector)))
    (table : gmap string Chunk) : gmap string Chunk :=
  match parts with
  | [] => table
  | (chunkId, (text, _)) :: rest =>
      persistChunks document (S sequence) rest
        (<[chunkId := {| c_document := document; c_sequence := sequence;
                         c_text := text |}]> table)
  end.

(** Modelled from the spec: the embeddings of a committed job (missing from
    the sources). *)
Definition persistEmbeddings (parts : list (string * (string * Vector)))
    (table : gmap string Vector) : gmap string Vector :=
  foldl (λ acc part, <[part.1 := part.2.2]> acc) table parts.

(** Modelled from the spec: the index adds of a committed job (missing from
    the sources). *)
Definition addAll (document : string)
    (parts : list (string * (string * Vector)))
    (index : gmap string IndexEntry) : gmap string IndexEntry :=
  foldl (λ acc part, add part.1 document part.2.2 acc) index parts.

(** Modelled from the spec: chunk ids are new and distinct (missing from
    the sources). *)
Definition freshParts (parts : list (string * (string * Vector)))
    (sys : System) : bool :=
  bool_decide (NoDup parts.*1)
  && forallb (λ part, bool_decide (chunks sys !! part.1 = None)) parts.

(** Modelled from the spec: the state machine of section 4.5 (missing from
    the sources): [PENDING → PROCESSING → READY], [PROCESSING → FAILED],
    resubmission [READY|FAILED → PENDING] after invalidation, the claim
    again of a job whose lease expired (section 5), which stays
    [PROCESSING], and the cascading delete of section 3.  An event that does
    not apply changes nothing. *)
Definition step (sys : System) (ev : JobEvent) : System :=
  match ev with
  | Upload document tenant file mime size now =>
      match documents sys !! document with
      | Some _ => sys
      | None =>
          {| documents :=
               <[document := {| tenant_id := tenant; d_file_name := file;
                                d_mime_type := mime; d_size := size;
                                d_status := pending; d_error := None;
                                d_created_at := now;
                                d_updated_at := now |}]> (documents sys);
             chunks := chunks sys; embeddings := embeddings sys;
             registry := registry sys |}
      end
  | Claim document now =>
      match documents sys !! document with
      | Some d =>
          if bool_decide (d_status d = pending)
          then {| documents :=
                    <[document := transition processing None now d]>
                      (documents sys);
                  chunks := chunks sys; embeddings := embeddings sys;
                  registry := registry sys |}
          else sys
      | None => sys
      end
  | Reclaim document now =>
      match documents sys !! document with
      | Some d =>
          if bool_decide (d_status d = processing)
          then {| documents :=
                    <[document := transition processing None now d]>
                      (documents sys);
                  chunks := chunks sys; embeddings := embeddings sys;
                  registry := registry sys |}
          else sys
      | None => sys
      end
  | Commit document parts now =>
      match documents sys !! document with
      | Some d =>
          if bool_decide (d_status d = processing) && freshParts parts sys
          then {| documents :=
                    <[document := transition ready None now d]>
                      (documents sys);
                  chunks := persistChunks document 0 parts (chunks sys);
                  embeddings := persistEmbeddings parts (embeddings sys);
                  registry :=
                    <[tenant_id d :=
                        addAll document parts
                          (tenantIndex sys (tenant_id d))]>
                      (registry sys) |}
          else sys
      | None => sys
      end
  | Fail document cause now =>
      match documents sys !! document with
      | Some d =>
          if bool_decide (d_status d = processing)
          then {| documents :=
                    <[document := transition failed (Some cause) now d]>
                      (documents sys);
                  chunks := chunks sys; embeddings := embeddings sys;
                  registry := registry sys |}
          else sys
      | None => sys
      end
  | Resubmit document now =>
      match documents sys !! document with
      | Some d =>
          if bool_decide (d_status d = ready ∨ d_status d = failed)
          then let '(cs, es, reg) := invalidate document sys in
               {| documents :=
                    <[document := transition pending None now d]>
                      (documents sys);
                  chunks := cs; embeddings := es; registry := reg |}
          else sys
      | None => sys
      end
  | Delete document =>
      let '(cs, es, reg) := invalidate document sys in
      {| documents := delete document (documents sys);
         chunks := cs; embeddings := es; registry := reg |}
  end.

(** Modelled from the spec: the system after a history of events, starting
    empty (missing from the sources). *)
Definition after (history : list JobEvent) : System :=
  foldl step emptySystem history.

(** Modelled from the spec: the document as the public interface shows it
    (the listing endpoint is missing from the sources). *)
Definition expose (document : string) (d : Document) : ChatbotDocument :=
  {| doc_id := document; file_name := d_file_name d;
     mime_type := d_mime_type d; size_bytes := d_size d;
     status := d_status d; error := d_error d;
     doc_created_at := d_created_at d; doc_updated_at := d_updated_at d |}.

(** Modelled from the spec: the documents of a tenant, as
    [GET /chatbots/{id}/documents] lists them (missing from the sources). *)
Definition listDocuments (sys : System) (tenant : string)
  : list ChatbotDocument :=
  (λ entry, expose entry.1 entry.2)
    <$> map_to_list (filter (λ entry, tenant_id entry.2 = tenant)
                            (documents sys)).

(** The error of every document is set exactly when the document failed. *)
Definition status_error_agree (sys : System) : Prop :=
  ∀ document d, documents sys !! document = Some d →
    (is_Some (d_error d) ↔ d_status d = failed).

(** Every vector of a tenant's index belongs to a READY document of that
    tenant. *)
Definition index_of_ready (sys : System) : Prop :=
  ∀ tenant index chunkId entry,
    registry sys !! tenant = Some index →
    index !! chunkId = Some entry →
    ∃ d, documents sys !! e_document entry = Some d
         ∧ d_status d = ready ∧ tenant_id d = tenant.

(** Every vector of an index is the vector of a persisted chunk of the
    document it names. *)
Definition index_of_chunks (sys : System) : Prop :=
  ∀ tenant index chunkId entry,
    registry sys !! tenant = Some index →
    index !! chunkId = Some entry →
    ∃ chunk, chunks sys !! chunkId = Some chunk
             ∧ c_document chunk = e_document entry.


(** A result comes strictly before another: higher score, or the same score
    and a smaller chunk id. *)
Definition ranks_strictly_before (a b : string * Qc) : Prop :=
  (b.2 < a.2)%Qc ∨ (a.2 = b.2 ∧ String.le a.1 b.1 ∧ a.1 ≠ b.1).

(** Scores go strictly down along the list. *)
Definition strictly_descending (results : list (string * Qc)) : Prop :=
  StronglySorted (λ a b, (b.2 < a.2)%Qc) results.

(** A sample metric: the inner product, which is the cosine similarity on
    unit vectors. *)
Fixpoint dot (a b : Vector) : Qc :=
  match a, b with
  | x :: a', y :: b' => (x * y + dot a' b')%Qc
  | _, _ => Q2Qc 0
  end.

End Core.

(** ** A small engine, to evaluate the handlers on concrete inputs *)

Module Sample.

(** The white space of [trim] among the characters below 256. *)
Definition is_white (c : ascii) : bool :=
  let n := N_of_ascii c in
  ((9 <=? n) && (n <=? 13))%N || (n =? 32)%N || (n =? 160)%N.

Fixpoint trimStart (s : string) : string :=
  match s with
  | String c rest => if is_white c then trimStart rest else s
  | EmptyString => EmptyString
  end.

Definition sample_trim (s : string) : string :=
  String.rev (trimStart (String.rev (trimStart s))).

Definition digit (c : ascii) : option Z :=
  let n := Z.of_N (N_of_ascii c) in
  if ((48 <=? n) && (n <=? 57))%Z then Some (n - 48)%Z else None.

(** The digits of [s] read after [acc], with the number of digits read past
    the decimal point once [frac] is set. *)
Fixpoint readDecimal (acc : Z) (frac : option nat) (s : string)
  : option (Z * nat) :=
  match s with
  | EmptyString => Some (acc, default 0%nat frac)
  | String c rest =>
      if bool_decide (c = "."%char)
      then match frac with
           | None => readDecimal acc (Some 0%nat) rest
           | Some _ => None
           end
      else match digit c with
           | Some d => readDecimal (10 * acc + d)%Z (S <$> frac) rest
           | None => None
           end
  end.

(** [Number] on unsigned decimal literals, read exactly (the engine rounds
    to the nearest double, the same number for literals such as [5], [20]
    or [2.5]); the empty string reads as 0, and what is not such a literal
    reads as NaN here. *)
Definition sample_Number (s : string) : JsNumber :=
  let t := sample_trim s in
  if bool_decide (t = ".") then NaN
  else match readDecimal 0 None t with
       | Some (n, places) =>
           Finite (Q2Qc (Qmake n (Z.to_pos (10 ^ Z.of_nat places))))
       | None => NaN
       end.

Global Instance sample_builtins : JsBuiltins :=
  {| trim := sample_trim; Number_ := sample_Number |}.

(** The creation form filled as in the test of the page, and the same with
    a [top_k] out of range. *)
Definition filled : ChatbotsPage.PageState :=
  {| ChatbotsPage.formState :=
       {| ChatbotsPage.name := "Support Bot";
          ChatbotsPage.model_provider := "gemini";
          ChatbotsPage.model_name := "models/gemini-2.5-flash";
          ChatbotsPage.system_prompt := "Answer with context";
          ChatbotsPage.temperature := "0.3";
          ChatbotsPage.form_top_k := "5" |};
     ChatbotsPage.formErrors := ChatbotsPage.noErrors;
     ChatbotsPage.serverError := None |}.

Definition overflowing : ChatbotsPage.PageState :=
  {| ChatbotsPage.formState :=
       {| ChatbotsPage.name := "Support Bot";
          ChatbotsPage.model_provider := "gemini";
          ChatbotsPage.model_name := "models/gemini-2.5-flash";
          ChatbotsPage.system_prompt := "";
          ChatbotsPage.temperature := "0.3";
          ChatbotsPage.form_top_k := "25" |};
     ChatbotsPage.formErrors := ChatbotsPage.noErrors;
     ChatbotsPage.serverError := None |}.

(** A browser whose storage works, and one whose storage is disabled. *)
Definition working : Api.Browser :=
  {| Api.items := ∅; Api.raises := λ _, false; Api.warnings := [] |}.

Definition disabled : Api.Browser :=
  {| Api.items := ∅; Api.raises := λ _, true; Api.warnings := [] |}.

(** A panel in the middle of a conversation, with a draft typed in. *)
Definition talking : ChatPanel.PanelState :=
  {| ChatPanel.conversationId := Some "conv-1";
     ChatPanel.messages :=
       [ {| ChatPanel.id := "local-0"; ChatPanel.role := user;
            ChatPanel.content := "Hi";
            ChatPanel.created_at := "2025-01-01T00:00:00Z";
            ChatPanel.pending_flag := Some false |};
         {| ChatPanel.id := "msg-1"; ChatPanel.role := assistant;
            ChatPanel.content := "Hello! How can I help?";
            ChatPanel.created_at := "2025-01-01T00:00:01Z";
            ChatPanel.pending_flag := Some false |} ];
     ChatPanel.contextChunks :=
       [ {| chunk_id := "chunk-1"; document_id := "doc-1";
            document_name := Some "faq.txt"; score := Q2Qc (9 # 10);
            chunk_content := "Reset your password from the profile page." |} ];
     ChatPanel.inputValue := " How do I reset my password? ";
     ChatPanel.chatError := None;
     ChatPanel.pendingMessageId := None;
     ChatPanel.inFlight := None |}.

(** A context chunk whose document has no name. *)
Definition nameless : ChatContextChunk :=
  {| chunk_id := "chunk-2"; document_id := "doc-2"; document_name := None;
     score := Q2Qc (1 # 2); chunk_content := "Open the settings page." |}.

(** An index with two chunks of equal vectors and a third one. *)
Definition twins : gmap string Core.IndexEntry :=
  list_to_map
    [ ("chunk-b", {| Core.e_document := "doc-1";
                     Core.e_vector := [Q2Qc 1; Q2Qc 0] |});
      ("chunk-a", {| Core.e_document := "doc-1";
                     Core.e_vector := [Q2Qc 1; Q2Qc 0] |});
      ("chunk-c", {| Core.e_document := "doc-2";
                     Core.e_vector := [Q2Qc 0; Q2Qc 1] |}) ].

(** The scenario of the specification: a document of two chunks, embedded
    as the unit vectors, uploaded, claimed and committed. *)
Definition ingested : list Core.JobEvent :=
  [ Core.Upload "doc-1" "bot-1" "faq.txt" "text/plain" 42
      "2025-01-01T00:00:00Z";
    Core.Claim "doc-1" "2025-01-01T00:00:01Z";
    Core.Commit "doc-1"
      [ ("chunk-1", ("Reset your password.", [Q2Qc 1; Q2Qc 0]));
        ("chunk-2", ("Open the settings page.", [Q2Qc 0; Q2Qc 1])) ]
      "2025-01-01T00:00:02Z" ].

(** The same document, failed instead. *)
Definition broken : list Core.JobEvent :=
  [ Core.Upload "doc-1" "bot-1" "faq.pdf" "application/pdf" 42
      "2025-01-01T00:00:00Z";
    Core.Claim "doc-1" "2025-01-01T00:00:01Z";
    Core.Fail "doc-1" "ExtractionError: unreadable file"
      "2025-01-01T00:00:02Z" ].

(** The document of the scenario, just uploaded. *)
Definition uploaded : Core.Document :=
  {| Core.tenant_id := "bot-1"; Core.d_file_name := "faq.txt";
     Core.d_mime_type := "text/plain"; Core.d_size := 42;
     Core.d_status := pending; Core.d_error := None;
     Core.d_created_at := "2025-01-01T00:00:00Z";
     Core.d_updated_at := "2025-01-01T00:00:00Z" |}.

(** The failed document, as the listing shows it. *)
Definition failed_document : ChatbotDocument :=
  {| doc_id := "doc-1"; file_name := "faq.pdf";
     mime_type := "application/pdf"; size_bytes := 42; status := failed;
     error := Some "ExtractionError: unreadable file";
     doc_created_at := "2025-01-01T00:00:00Z";
     doc_updated_at := "2025-01-01T00:00:02Z" |}.

(** The context chunk of the scenario: the first chunk of the document,
    with score 1. *)
Definition retrieved : ChatContextChunk :=
  {| chunk_id := "chunk-1"; document_id := "doc-1";
     document_name := Some "faq.txt"; score := Q2Qc 1;
     chunk_content := "Reset your password." |}.

(** A stub of the Embedding Client for the query of the scenario. *)
Definition unit_embed (text : string) : Core.Vector := [Q2Qc 1; Q2Qc 0].

Definition answer (chunks : list ChatContextChunk) : ChatResponsePayload :=
  {| resp_conversation_id := "conv-1";
     reply := {| msg_id := "msg-2"; msg_role := assistant;
                 msg_content := "Use the profile page.";
                 msg_created_at := "2025-01-01T00:00:03Z" |};
     context := chunks;
     created_new_conversation := false |}.

End Sample.
(** ** lib/api.ts: the request interceptor *)

Module Interceptor.
Import Api.

(** The headers of a request: an [AxiosHeaders] object, which has a [set]
    method, or a plain object. *)
Inductive Headers : Type :=
| AxiosHeaders (entries : gmap string string)
| PlainObject (entries : gmap string string).

(** What the interceptor reads and writes of an axios request config. *)
Record RequestConfig : Type := {
  url : string;
  method : string;
  headers : option Headers;
}.

Definition with_headers (h : Headers) (config : RequestConfig)
  : RequestConfig :=
  {| url := url config; method := method config; headers := Some h |}.

(** [`Bearer ${token}`] *)
Definition bearer (token : string) : string := "Bearer " ++ token.

Section interceptor.

(** [AxiosHeaders.prototype.set], of the axios library. *)
Variable headers_set : string → string → gmap string string
                       → gmap string string.

(** The function given to [apiClient.interceptors.request.use]. *)
Definition authorize (config : RequestConfig) : JS RequestConfig :=
  bind getStoredToken (λ token,
    if negb (truthy token) then ret config
    else
      let value := bearer (default "" token) in
      match headers config with
      | Some (AxiosHeaders entries) =>
          ret (with_headers
                 (AxiosHeaders (headers_set "Authorization" value entries))
                 config)
      | Some (PlainObject entries) =>
          ret (with_headers
                 (PlainObject (<["Authorization" := value]> entries))
                 config)
      | None =>
          ret (with_headers
                 (AxiosHeaders {["Authorization" := value]})
                 config)
      end).

End interceptor.

(** The storage call that [setStoredToken] makes. *)
Definition storageCall (token : option string) : StorageCall :=
  if truthy token then SetItem TOKEN_STORAGE_KEY (default "" token)
  else RemoveItem TOKEN_STORAGE_KEY.

(** The own property of a name in the headers. *)
Definition header (name : string) (config : RequestConfig)
  : option string :=
  match headers config with
  | Some (AxiosHeaders entries) | Some (PlainObject entries) =>
      entries !! name
  | None => None
  end.

(** A request whose headers are a plain object, or missing. *)
Definition plain (config : RequestConfig) : Prop :=
  match headers config with
  | Some (AxiosHeaders _) => False
  | _ => True
  end.

End Interceptor.

(** ** App.tsx: the token form of the layout, over the provider of
    context/AuthContext.tsx *)

Module MainLayout.
Import Api.

(** The token of the provider and the draft of the form. *)
Record LayoutState : Type := {
  token : option string;
  draftToken : string;
}.

Section layout.
Context `{JsBuiltins}.

(** The first render: the provider's state starts from the stored token
    and the draft from the token. *)
Definition mount : JS LayoutState :=
  bind getStoredToken (λ stored,
    ret {| token := stored; draftToken := default "" stored |}).

(** The effect on [token]: it runs when the token has changed. *)
Definition syncDraft (before after : option string) (draft : string)
  : string :=
  if bool_decide (before = after) then draft else default "" after.

(** [handleSubmit]: [setToken(draftToken)], then the effect. *)
Definition handleSubmit (st : LayoutState) : JS LayoutState :=
  bind (AuthContext.setToken (draftToken st)) (λ next,
    ret {| token := next;
           draftToken := syncDraft (token st) next (draftToken st) |}).

(** [handleClear]: the draft is emptied and [clearToken()] called. *)
Definition handleClear (st : LayoutState) : JS LayoutState :=
  bind AuthContext.clearToken (λ next,
    ret {| token := next; draftToken := syncDraft (token st) next "" |}).

End layout.

(** The token that saving a draft leaves when the storage works. *)
Definition saved `{JsBuiltins} (draft : string) : option string :=
  if bool_decide (trim draft = "") then None else Some (trim draft).

(** The draft's [onChange]. *)
Definition setDraftToken (value : string) (st : LayoutState) : LayoutState :=
  {| token := token st; draftToken := value |}.

(** The status line under the form. *)
Definition status (st : LayoutState) : string :=
  if negb (truthy (token st)) then "No token configured"
  else "Token stored".

End MainLayout.

(** ** routes/ChatbotDetailPage.tsx: sizes, uploads and the page's error *)

Module DetailPage.
Import Api.

(** [units] *)
Definition units : list string := ["B"; "KB"; "MB"; "GB"].

(** The [while] loop of [formatBytes]: as long as the value is at least 1024
    and a larger unit is left, the value is divided by 1024 and the index
    moves to the next unit.  [left] is the number of larger units,
    [units.length - 1 - index].  The division is by a power of two of a
    double that is at least 1024, hence exact. *)
Fixpoint scale (left : nat) (value : Qc) (index : nat) : Qc * nat :=
  match left with
  | O => (value, index)
  | S left' =>
      if bool_decide (Qc_of_Z 1024 ≤ value)%Qc
      then scale left' (value / Qc_of_Z 1024)%Qc (S index)
      else (value, index)
  end.

Section formatting.

(** [Number.prototype.toFixed], of the engine: the digits after the point,
    then the number. *)
Variable toFixed : nat → Qc → string.

Definition formatBytes (bytes : JsNumber) : string :=
  match bytes with
  | Finite q =>
      let '(value, index) := scale (length units - 1) q 0 in
      toFixed (if bool_decide (index = 0%nat) then 0%nat else 1%nat) value
      ++ " " ++ default "undefined" (units !! index)
  | _ => "-"
  end.

End formatting.

(** A file chosen in the input. *)
Record File : Type := {
  name : string;
  size : N;
}.

(** The upload form: the two [useState] cells, the value of the file
    input, and the mutation, which holds the files of the upload in flight. *)
Record UploadState : Type := {
  selectedFiles : list File;
  uploadError : option string;
  inputFiles : list File;
  uploading : option (list File);
}.

Definition noUpload : UploadState :=
  {| selectedFiles := []; uploadError := None; inputFiles := [];
     uploading := None |}.

(** [uploadMutation.isPending] *)
Definition isPending (st : UploadState) : bool :=
  bool_decide (is_Some (uploading st)).

(** [handleFileChange], with the files of the event. *)
Definition handleFileChange (files : list File) (st : UploadState)
  : UploadState :=
  {| selectedFiles := files; uploadError := None; inputFiles := files;
     uploading := uploading st |}.

(** [handleUpload]: the files handed to [uploadMutation.mutate], if any. *)
Definition handleUpload (st : UploadState)
  : UploadState * option (list File) :=
  if bool_decide (length (selectedFiles st) = 0%nat) || isPending st
  then (st, None)
  else ({| selectedFiles := selectedFiles st;
           uploadError := uploadError st;
           inputFiles := inputFiles st;
           uploading := Some (selectedFiles st) |},
        Some (selectedFiles st)).

(** The mutation's [onSuccess]. *)
Definition onSuccess (st : UploadState) : UploadState :=
  {| selectedFiles := []; uploadError := None; inputFiles := [];
     uploading := uploading st |}.

(** The mutation's [onError]. *)
Definition onError (error : JsError) (st : UploadState) : UploadState :=
  {| selectedFiles := selectedFiles st;
     uploadError := Some (getErrorMessage error);
     inputFiles := inputFiles st;
     uploading := uploading st |}.

(** The [onClick] of the Clear button. *)
Definition handleClear (st : UploadState) : UploadState :=
  {| selectedFiles := []; uploadError := None; inputFiles := [];
     uploading := uploading st |}.

Definition settled (st : UploadState) : UploadState :=
  {| selectedFiles := selectedFiles st; uploadError := uploadError st;
     inputFiles := inputFiles st; uploading := None |}.

(** What happens to the form. *)
Inductive Event : Type :=
| Chosen (files : list File)
| UploadPressed
| Uploaded
| UploadFailed (error : JsError)
| ClearPressed.

(** One event: the next state and the files sent to
    [uploadChatbotDocuments], if the event sends some. *)
Definition step (st : UploadState) (ev : Event)
  : UploadState * option (list File) :=
  match ev with
  | Chosen files => (handleFileChange files st, None)
  | UploadPressed => handleUpload st
  | Uploaded =>
      if isPending st then (settled (onSuccess st), None) else (st, None)
  | UploadFailed error =>
      if isPending st then (settled (onError error st), None)
      else (st, None)
  | ClearPressed => (handleClear st, None)
  end.

(** A run from a state, with the uploads it sent, oldest first. *)
Fixpoint run (st : UploadState) (evs : list Event)
  : UploadState * list (list File) :=
  match evs with
  | [] => (st, [])
  | ev :: evs' =>
      let '(st', sent) := step st ev in
      let '(st'', rest) := run st' evs' in
      (st'', option_list sent ++ rest)
  end.

(** The events that do not settle the upload. *)
Definition unsettled (ev : Event) : bool :=
  match ev with
  | Uploaded | UploadFailed _ => false
  | _ => true
  end.

(** Presses of Upload, which change nothing of the selection. *)
Definition press (ev : Event) : bool :=
  match ev with
  | UploadPressed => true
  | _ => false
  end.

(** [{uploadError && <div ...>{uploadError}</div>}] *)
Definition error_shown (st : UploadState) : option string :=
  if truthy (uploadError st) then uploadError st else None.

End DetailPage.

(** ** routes/ChatbotsPage.tsx: the editing of the form and the list *)

Module ChatbotsForm.
Import Api ChatbotsPage.

(** [keyof FormState] *)
Inductive FieldKey : Type :=
| KName
| KModelProvider
| KModelName
| KSystemPrompt
| KTemperature
| KTopK.

Global Instance FieldKey_eq_dec : EqDecision FieldKey.
Proof. solve_decision. Defined.

(** [form[key]] and [{ ...form, [key]: value }] *)
Definition field (key : FieldKey) (form : FormState) : string :=
  match key with
  | KName => name form
  | KModelProvider => model_provider form
  | KModelName => model_name form
  | KSystemPrompt => system_prompt form
  | KTemperature => temperature form
  | KTopK => form_top_k form
  end.

Definition setField (key : FieldKey) (value : string) (form : FormState)
  : FormState :=
  {| name := if bool_decide (key = KName) then value else name form;
     model_provider := if bool_decide (key = KModelProvider) then value
                       else model_provider form;
     model_name := if bool_decide (key = KModelName) then value
                   else model_name form;
     system_prompt := if bool_decide (key = KSystemPrompt) then value
                      else system_prompt form;
     temperature := if bool_decide (key = KTemperature) then value
                    else temperature form;
     form_top_k := if bool_decide (key = KTopK) then value
                   else form_top_k form |}.

(** [errors[key]] and [{ ...errors, [key]: undefined }] *)
Definition fieldError (key : FieldKey) (errors : FormErrors)
  : option IssueMessage :=
  match key with
  | KName => err_name errors
  | KModelProvider => err_model_provider errors
  | KModelName => err_model_name errors
  | KSystemPrompt => err_system_prompt errors
  | KTemperature => err_temperature errors
  | KTopK => err_top_k errors
  end.

Definition clearError (key : FieldKey) (errors : FormErrors) : FormErrors :=
  {| err_name := if bool_decide (key = KName) then None
                 else err_name errors;
     err_model_provider := if bool_decide (key = KModelProvider) then None
                           else err_model_provider errors;
     err_model_name := if bool_decide (key = KModelName) then None
                       else err_model_name errors;
     err_system_prompt := if bool_decide (key = KSystemPrompt) then None
                          else err_system_prompt errors;
     err_temperature := if bool_decide (key = KTemperature) then None
                        else err_temperature errors;
     err_top_k := if bool_decide (key = KTopK) then None
                  else err_top_k errors |}.

(** [handleInputChange] *)
Definition handleInputChange (key : FieldKey) (value : string)
    (st : PageState) : PageState :=
  {| formState := setField key value (formState st);
     formErrors := clearError key (formErrors st);
     serverError := serverError st |}.

(** The values of [MODEL_OPTIONS_BY_PROVIDER], by provider. *)
Definition MODEL_OPTIONS_BY_PROVIDER : gmap string (list string) :=
  {[ "gemini" := ["models/gemini-2.5-flash"] ]}.

(** The [onChange] of the provider's select. *)
Definition handleProviderChange (provider : string) (st : PageState)
  : PageState :=
  let nextModels := default [] (MODEL_OPTIONS_BY_PROVIDER !! provider) in
  let nextModelValue := default "" (head nextModels) in
  {| formState :=
       setField KModelName nextModelValue
         (setField KModelProvider provider (formState st));
     formErrors :=
       clearError KModelName (clearError KModelProvider (formErrors st));
     serverError := serverError st |}.

(** The field of the form that a check of the schema is about is valid. *)
Definition valid `{JsBuiltins} (key : FieldKey) (form : FormState) : Prop :=
  match key with
  | KName => name form ≠ ""
  | KModelProvider => model_provider form ≠ ""
  | KModelName => model_name form ≠ ""
  | KSystemPrompt => (String.length (system_prompt form) ≤ 5000)%nat
  | KTemperature =>
      ∃ q : Qc, Number_ (temperature form) = Finite q
                ∧ (Qc_of_Z 0 ≤ q)%Qc ∧ (q ≤ Qc_of_Z 1)%Qc
  | KTopK =>
      ∃ k : Z, integer_value (Number_ (form_top_k form)) = Some k
               ∧ (1 ≤ k ≤ 20)%Z
  end.

(** The issues that the schema finds in a field of the form, in the order of
    its checks. *)
Definition fieldIssues `{JsBuiltins} (key : FieldKey) (form : FormState)
  : list IssueMessage :=
  match key with
  | KName => string_min 1 "Name is required" (name form)
  | KModelProvider =>
      string_min 1 "Provider is required" (model_provider form)
  | KModelName => string_min 1 "Model is required" (model_name form)
  | KSystemPrompt =>
      optional_string_max 5000 "Prompt is too long"
        (if truthy (Some (system_prompt form))
         then Some (system_prompt form) else None)
  | KTemperature => number_checks false 0 1 (Number_ (temperature form))
  | KTopK => number_checks true 1 20 (Number_ (form_top_k form))
  end.

(** [parsed.data.system_prompt?.trim() || undefined] on the prompt typed. *)
Definition sentPrompt `{JsBuiltins} (prompt : string) : option string :=
  if truthy (Some prompt) && truthy (Some (trim prompt))
  then Some (trim prompt) else None.

(** The description of a chatbot in the list: the text shown, and whether
    an ellipsis follows it. *)
Definition description (system_prompt : string) : string * bool :=
  (if truthy (Some system_prompt) then substring 0 160 system_prompt
   else "No system prompt",
   truthy (Some system_prompt)
   && bool_decide (160 < String.length system_prompt)%nat).

End ChatbotsForm.

(** ** components/ChatPanel.tsx: counting the requests of a history *)

Module ChatHistory.
Import ChatPanel.

(** The number of responses and failures among the events. *)
Fixpoint settles (evs : list Event) : nat :=
  match evs with
  | [] => 0%nat
  | Resolved _ :: evs' | Rejected _ :: evs' => S (settles evs')
  | _ :: evs' => settles evs'
  end.

(** What holds of the panel at every moment: the pending marker names the
    request in flight, no error is set while one is in flight, and only the
    message of the request in flight is marked as being sent. *)
Definition coherent (st : PanelState) : Prop :=
  (∀ localId, pendingMessageId st = Some localId →
     inFlight st = Some localId)
  ∧ (is_Some (inFlight st) → chatError st = None)
  ∧ (∀ m, m ∈ messages st → pending_flag m = Some true →
       inFlight st = Some (id m)).

End ChatHistory.

(** ** More inputs for the examples *)

Module Inputs.

(** A browser whose storage works and holds a token. *)
Definition signedIn : Api.Browser :=
  {| Api.items := {[ Api.TOKEN_STORAGE_KEY := "jwt-1";
                     "theme" := "dark" ]};
     Api.raises := λ _, false; Api.warnings := [] |}.

(** A browser that holds a token and refuses every write. *)
Definition readOnly : Api.Browser :=
  {| Api.items := {[ Api.TOKEN_STORAGE_KEY := "jwt-1" ]};
     Api.raises := λ call, match call with
                           | Api.GetItem _ => false
                           | _ => true
                           end;
     Api.warnings := [] |}.

(** A request with plain headers. *)
Definition listing : Interceptor.RequestConfig :=
  {| Interceptor.url := "/chatbots"; Interceptor.method := "get";
     Interceptor.headers :=
       Some (Interceptor.PlainObject {[ "Accept" := "application/json" ]}) |}.

(** The layout with a token typed in, not yet saved. *)
Definition typing : MainLayout.LayoutState :=
  {| MainLayout.token := None; MainLayout.draftToken := "  jwt-2  " |}.

(** Two files chosen for upload. *)
Definition chosen : DetailPage.UploadState :=
  {| DetailPage.selectedFiles :=
       [ {| DetailPage.name := "faq.txt"; DetailPage.size := 42 |};
         {| DetailPage.name := "guide.pdf"; DetailPage.size := 2048 |} ];
     DetailPage.uploadError := None;
     DetailPage.inputFiles :=
       [ {| DetailPage.name := "faq.txt"; DetailPage.size := 42 |};
         {| DetailPage.name := "guide.pdf"; DetailPage.size := 2048 |} ];
     DetailPage.uploading := None |}.

End Inputs.

(** * Properties *)

(** ** The stored token *)

Module ApiFacts.
Import Api Sample.

Lemma setStoredToken_raises token b :
  raises (setStoredToken token b).2 = raises b.
Proof.
  unfold setStoredToken, try_catch, localStorage_removeItem,
    localStorage_setItem, console_warn.
  destruct (negb (truthy token)); simpl;
    match goal with |- context [raises b ?c] => destruct (raises b c) end;
    reflexivity.
Qed.

Lemma setStoredToken_normal token b : (setStoredToken token b).1 = Normal ().
Proof.
  unfold setStoredToken, try_catch, localStorage_removeItem,
    localStorage_setItem, console_warn.
  destruct (negb (truthy token)); simpl;
    match goal with |- context [raises b ?c] => destruct (raises b c) end;
    reflexivity.
Qed.

Lemma getStoredToken_raising b :
  raises b (GetItem TOKEN_STORAGE_KEY) = true →
  getStoredToken b = (Normal None, b).
Proof.
  intros Hr. unfold getStoredToken, try_catch, localStorage_getItem.
  rewrite Hr. reflexivity.
Qed.

Lemma getStoredToken_reads b :
  raises b (GetItem TOKEN_STORAGE_KEY) = false →
  getStoredToken b = (Normal (items b !! TOKEN_STORAGE_KEY), b).
Proof.
  intros Hr. unfold getStoredToken, try_catch, localStorage_getItem.
  rewrite Hr. reflexivity.
Qed.

Lemma setStoredToken_stores t b :
  t ≠ "" →
  raises b (SetItem TOKEN_STORAGE_KEY t) = false →
  items (setStoredToken (Some t) b).2 = <[TOKEN_STORAGE_KEY := t]> (items b).
Proof.
  intros Ht Hr. unfold setStoredToken, try_catch, localStorage_setItem.
  simpl. rewrite bool_decide_false by done. simpl. rewrite Hr. reflexivity.
Qed.

Lemma setStoredToken_removes token b :
  truthy token = false →
  raises b (RemoveItem TOKEN_STORAGE_KEY) = false →
  items (setStoredToken token b).2 = delete TOKEN_STORAGE_KEY (items b).
Proof.
  intros Ht Hr. unfold setStoredToken, try_catch, localStorage_removeItem.
  rewrite Ht. simpl. rewrite Hr. reflexivity.
Qed.

(** When the call raises, the storage keeps its items and the console gets
    the warning. *)
Lemma setStoredToken_swallows t b :
  t ≠ "" →
  raises b (SetItem TOKEN_STORAGE_KEY t) = true →
  (setStoredToken (Some t) b).2
  = {| items := items b; raises := raises b;
       warnings := warnings b ++ ["Unable to persist auth token"] |}.
Proof.
  intros Ht Hr. unfold setStoredToken, try_catch, localStorage_setItem.
  simpl. rewrite bool_decide_false by done. simpl. rewrite Hr. reflexivity.
Qed.

(** C10. Token storage round-trips: storing a non-empty token and reading it
    back gives that token, storing [null] and reading back gives [null],
    both when the storage calls go through; when the [localStorage] access
    throws, [getStoredToken] returns [null], and [setStoredToken] returns
    normally whatever the storage does. *)
Theorem C10_token_storage_round_trip (b : Browser) :
  (∀ t : string,
     t ≠ "" →
     raises b (SetItem TOKEN_STORAGE_KEY t) = false →
     raises b (GetItem TOKEN_STORAGE_KEY) = false →
     (getStoredToken (setStoredToken (Some t) b).2).1 = Normal (Some t))
  ∧ (raises b (RemoveItem TOKEN_STORAGE_KEY) = false →
     (getStoredToken (setStoredToken None b).2).1 = Normal None)
  ∧ (raises b (GetItem TOKEN_STORAGE_KEY) = true →
     (getStoredToken b).1 = Normal None)
  ∧ (∀ token : option string, (setStoredToken token b).1 = Normal ()).
Proof.
  repeat split.
  - intros t Ht Hset Hget.
    rewrite getStoredToken_reads
      by (rewrite setStoredToken_raises; exact Hget).
    simpl. rewrite setStoredToken_stores by assumption.
    rewrite lookup_insert_eq. reflexivity.
  - intros Hrm.
    destruct (raises b (GetItem TOKEN_STORAGE_KEY)) eqn:Hget.
    + rewrite getStoredToken_raising
        by (rewrite setStoredToken_raises; exact Hget).
      reflexivity.
    + rewrite getStoredToken_reads
        by (rewrite setStoredToken_raises; exact Hget).
      simpl. rewrite setStoredToken_removes by (assumption || reflexivity).
      rewrite lookup_delete_eq. reflexivity.
  - intros Hget. rewrite getStoredToken_raising by assumption. reflexivity.
  - intros token. apply setStoredToken_normal.
Qed.

Lemma C10_token_storage_round_trip_witness :
  (getStoredToken (setStoredToken (Some "jwt") working).2).1
  = Normal (Some "jwt")
  ∧ (getStoredToken (setStoredToken None working).2).1 = Normal None
  ∧ (getStoredToken disabled).1 = Normal None
  ∧ (setStoredToken (Some "jwt") disabled).1 = Normal ().
Proof.
  split; [|split; [|split]].
  - apply (proj1 (C10_token_storage_round_trip working));
      [discriminate | reflexivity | reflexivity].
  - apply (proj1 (proj2 (C10_token_storage_round_trip working))).
    reflexivity.
  - apply (proj1 (proj2 (proj2 (C10_token_storage_round_trip disabled)))).
    reflexivity.
  - apply (proj2 (proj2 (proj2 (C10_token_storage_round_trip disabled)))).
Defined.

Lemma bind_normal {A B} (m : JS A) (k : A → JS B) (b : Browser) (a : A) :
  (m b).1 = Normal a → bind m k b = k a (m b).2.
Proof.
  unfold bind. destruct (m b) as [[a'|e] b']; simpl; intros [=].
  by subst.
Qed.

(** The provider's setters keep the state and the storage in step: with a
    storage that works, the token read back is the state the setter
    returns, the trimmed value or [null] when that is empty. *)
Lemma setToken_stored `{JsBuiltins} (value : string) (b : Browser) :
  (∀ call, raises b call = false) →
  (AuthContext.setToken value b).1
  = Normal (if bool_decide (trim value = "") then None
            else Some (trim value))
  ∧ (getStoredToken (AuthContext.setToken value b).2).1
    = (AuthContext.setToken value b).1.
Proof.
  intros Hworks. unfold AuthContext.setToken. simpl.
  case_bool_decide as Hempty; simpl;
    rewrite (bind_normal _ _ b ()) by apply setStoredToken_normal;
    unfold ret; simpl; (split; [done|]);
    rewrite getStoredToken_reads
      by (rewrite setStoredToken_raises; apply Hworks);
    simpl.
  - rewrite setStoredToken_removes by (reflexivity || apply Hworks).
    by rewrite lookup_delete_eq.
  - rewrite setStoredToken_stores by (assumption || apply Hworks).
    by rewrite lookup_insert_eq.
Qed.

End ApiFacts.

(** ** The chat panel *)

Module ChatPanelFacts.
Import Api ChatPanel Sample.

Section facts.
Context `{JsBuiltins}.

Lemma handleSubmit_sends st localId now :
  trim (inputValue st) ≠ "" → isPending st = false →
  handleSubmit st localId now
  = ({| conversationId := conversationId st;
        messages := messages st
          ++ [ {| id := localId; role := user;
                  content := trim (inputValue st); created_at := now;
                  pending_flag := Some true |} ];
        contextChunks := contextChunks st;
        inputValue := "";
        chatError := None;
        pendingMessageId := Some localId;
        inFlight := Some localId |},
     Some {| message := trim (inputValue st);
             conversation_id := conversationId st;
             top_k := None |}).
Proof.
  intros Ht Hp. unfold handleSubmit.
  rewrite bool_decide_false by assumption. rewrite Hp. reflexivity.
Qed.

Lemma handleSubmit_ignores st localId now :
  trim (inputValue st) = "" ∨ isPending st = true →
  handleSubmit st localId now = (st, None).
Proof.
  intros Hc. unfold handleSubmit.
  destruct Hc as [Ht | Hp].
  - rewrite bool_decide_true by assumption. reflexivity.
  - rewrite Hp, orb_true_r. reflexivity.
Qed.

(** The two outcomes of a submission. *)
Lemma handleSubmit_cases st :
  (trim (inputValue st) ≠ "" ∧ isPending st = false)
  ∨ (trim (inputValue st) = "" ∨ isPending st = true).
Proof.
  destruct (decide (trim (inputValue st) = "")); [right; by left|].
  destruct (isPending st); [right; by right | left; done].
Qed.

Lemma handleSubmit_conversationId st localId now :
  conversationId (handleSubmit st localId now).1 = conversationId st.
Proof.
  destruct (handleSubmit_cases st) as [[Ht Hp] | Hc].
  - rewrite handleSubmit_sends by assumption. reflexivity.
  - rewrite handleSubmit_ignores by assumption. reflexivity.
Qed.

Lemma run_cons st ev evs :
  (run st (ev :: evs)).1 = (run (step st ev).1 evs).1.
Proof.
  simpl. destruct (step st ev) as [st' req]. simpl.
  destruct (run st' evs) as [st'' reqs]. reflexivity.
Qed.

Lemma run_app evs1 : ∀ st evs2,
  (run st (evs1 ++ evs2)).1 = (run (run st evs1).1 evs2).1.
Proof.
  induction evs1 as [|ev evs1 IH]; intros st evs2; [reflexivity|].
  rewrite <- app_comm_cons, !run_cons. apply IH.
Qed.

Lemma run_requests st ev evs :
  (run st (ev :: evs)).2
  = option_list (step st ev).2 ++ (run (step st ev).1 evs).2.
Proof.
  simpl. destruct (step st ev) as [st' req]. simpl.
  destruct (run st' evs) as [st'' reqs]. reflexivity.
Qed.

Lemma orderly_app evs1 : ∀ st evs2,
  orderly st (evs1 ++ evs2)
  = orderly st evs1 && orderly (run st evs1).1 evs2.
Proof.
  induction evs1 as [|ev evs1 IH]; intros st evs2; [reflexivity|].
  rewrite <- app_comm_cons, run_cons. cbn [orderly].
  rewrite IH. by rewrite andb_assoc.
Qed.

(** Only a response and a reset change the conversation id. *)
Lemma run_keeps_conversation evs : ∀ st,
  ResetPressed ∉ evs → (∀ response, Resolved response ∉ evs) →
  conversationId (run st evs).1 = conversationId st.
Proof.
  induction evs as [|ev evs IH]; intros st Hreset Hresolved; [reflexivity|].
  rewrite run_cons.
  rewrite IH.
  2: { intros Hin. apply Hreset. by right. }
  2: { intros response Hin. apply (Hresolved response). by right. }
  destruct ev as [localId now | response | error | | value]; simpl.
  - apply handleSubmit_conversationId.
  - exfalso. apply (Hresolved response). by left.
  - by destruct (inFlight st).
  - exfalso. apply Hreset. by left.
  - reflexivity.
Qed.

(** A session starts without a conversation id and, in an orderly history,
    without a request in flight. *)
Lemma session_start before :
  before = [] ∨ (∃ earlier, before = earlier ++ [ResetPressed]) →
  orderly initialState before = true →
  conversationId (run initialState before).1 = None
  ∧ isPending (run initialState before).1 = false.
Proof.
  intros [-> | [earlier ->]] Hord; [done|].
  rewrite orderly_app in Hord. apply andb_true_iff in Hord as [_ Hord].
  cbn [orderly] in Hord. rewrite andb_true_r in Hord.
  apply negb_true_iff in Hord.
  rewrite run_app. simpl. split; [reflexivity|]. exact Hord.
Qed.

(** In an orderly history that starts with nothing in flight, a response
    comes only after a request. *)
Lemma no_request_no_response evs : ∀ st,
  orderly st evs = true → isPending st = false → (run st evs).2 = [] →
  ∀ response, Resolved response ∉ evs.
Proof.
  induction evs as [|ev evs IH]; intros st Hord Hp Hnone response Hin;
    [by apply elem_of_nil in Hin|].
  rewrite run_requests in Hnone. apply app_eq_nil in Hnone as [Hev Hrest].
  cbn [orderly] in Hord. apply andb_true_iff in Hord as [Hev' Hord].
  apply elem_of_cons in Hin as [Heq | Hin].
  { subst ev. simpl in Hev'. congruence. }
  apply (IH (step st ev).1 Hord) with (response := response);
    [|exact Hrest|exact Hin].
  destruct ev as [localId now | response' | error | | value]; simpl in *.
  - destruct (handleSubmit_cases st) as [[Ht Hp'] | Hc].
    + rewrite handleSubmit_sends in Hev by assumption. discriminate Hev.
    + rewrite handleSubmit_ignores by assumption. exact Hp.
  - congruence.
  - congruence.
  - exact Hp.
  - exact Hp.
Qed.

(** While a request is in flight, presses of Send and typing change nothing
    but the input, and send nothing. *)
Lemma run_quiet between : ∀ st,
  Forall (λ ev, quiet ev = true) between → isPending st = true →
  messages (run st between).1 = messages st
  ∧ contextChunks (run st between).1 = contextChunks st
  ∧ conversationId (run st between).1 = conversationId st
  ∧ chatError (run st between).1 = chatError st
  ∧ pendingMessageId (run st between).1 = pendingMessageId st
  ∧ inFlight (run st between).1 = inFlight st
  ∧ ((∀ value, Typed value ∉ between) →
     inputValue (run st between).1 = inputValue st)
  ∧ (run st between).2 = [].
Proof.
  induction between as [|ev between IH]; intros st Hquiet Hp; [done|].
  apply Forall_cons in Hquiet as [Hev Hquiet].
  rewrite run_cons, run_requests.
  destruct ev as [localId now | response | error | | value];
    try discriminate Hev; simpl.
  - rewrite handleSubmit_ignores by (by right). simpl.
    destruct (IH st Hquiet Hp) as (? & ? & ? & ? & ? & ? & Hinput & ?).
    repeat split; try done.
    intros Hno. apply Hinput. intros value Hin. apply (Hno value).
    by right.
  - destruct (IH (setInputValue value st) Hquiet Hp)
      as (? & ? & ? & ? & ? & ? & _ & ?).
    repeat split; try done.
    intros Hno. exfalso. apply (Hno value). by left.
Qed.

Lemma getErrorMessage_shown error :
  error ≠ PlainError "" → truthy (Some (getErrorMessage error)) = true.
Proof.
  intros Hne. unfold truthy. apply negb_true_iff, bool_decide_eq_false.
  destruct error as [detail message | message |]; simpl.
  - unfold or_else. repeat case_bool_decide; congruence.
  - congruence.
  - discriminate.
Qed.

Lemma filter_keeps_all {A} (P : A → Prop) `{∀ x, Decision (P x)}
    (l : list A) :
  (∀ x, x ∈ l → P x) → filter P l = l.
Proof.
  induction l as [|x l IH]; intros Hall; [reflexivity|].
  rewrite filter_cons_True by (apply Hall; by left).
  f_equal. apply IH. intros y Hy. apply Hall. by right.
Qed.

(** C8, amended. A submission of the chat form, after any history of the
    panel, sends a request exactly when the trimmed input is not empty and no
    request is pending; the request carries the trimmed input as its message
    and no [top_k].  A session begins when the panel is mounted and when the
    conversation is reset.  In a history where responses come only for
    requests in flight and the conversation is not reset while a request is
    pending, the conversation id of the request is undefined on the first
    turn of the session and as long as no response has come in the session,
    and is the id of the last response of the session once one has come. *)
Theorem C8_chat_request (evs : list Event) (localId : string)
    (now : ISODateTimeString) :
  let st := (run initialState evs).1 in
  let sent := (handleSubmit st localId now).2 in
  (is_Some sent ↔ trim (inputValue st) ≠ "" ∧ isPending st = false)
  ∧ (∀ payload : ChatRequestPayload,
       sent = Some payload →
       message payload = trim (inputValue st) ∧ top_k payload = None)
  ∧ (orderly initialState evs = true →
     ∀ (before since : list Event) (payload : ChatRequestPayload),
       evs = before ++ since →
       before = [] ∨ (∃ earlier, before = earlier ++ [ResetPressed]) →
       ResetPressed ∉ since →
       sent = Some payload →
       ((run (run initialState before).1 since).2 = [] →
        conversation_id payload = None)
       ∧ ((∀ response, Resolved response ∉ since) →
          conversation_id payload = None)
       ∧ (∀ pre response post,
            since = pre ++ Resolved response :: post →
            (∀ later, Resolved later ∉ post) →
            conversation_id payload
            = Some (resp_conversation_id response))).
Proof.
  intros st sent. subst sent.
  assert (Hpayload : ∀ payload,
            (handleSubmit st localId now).2 = Some payload →
            message payload = trim (inputValue st)
            ∧ top_k payload = None
            ∧ conversation_id payload = conversationId st).
  { intros payload Hsent.
    destruct (handleSubmit_cases st) as [[Ht Hp] | Hc].
    - rewrite handleSubmit_sends in Hsent by assumption. simpl in Hsent.
      by injection Hsent as <-.
    - rewrite handleSubmit_ignores in Hsent by assumption. discriminate. }
  split; [|split].
  - destruct (handleSubmit_cases st) as [[Ht Hp] | Hc].
    + rewrite handleSubmit_sends by assumption. simpl. split; eauto.
    + rewrite handleSubmit_ignores by assumption. simpl. split.
      * intros [? ?]; discriminate.
      * intros [Ht Hp]. destruct Hc; congruence.
  - intros payload Hsent.
    destruct (Hpayload payload Hsent) as (? & ? & _). done.
  - intros Hord before since payload Hevs Hbefore Hreset Hsent.
    destruct (Hpayload payload Hsent) as (_ & _ & ->).
    subst st. rewrite Hevs in *. clear Hevs Hpayload Hsent.
    rewrite orderly_app in Hord.
    apply andb_true_iff in Hord as [Hord1 Hord2].
    destruct (session_start before Hbefore Hord1) as [Hid Hp].
    rewrite run_app.
    set (start := (run initialState before).1) in *.
    assert (Hnone : (∀ response, Resolved response ∉ since) →
              conversationId (run start since).1 = None).
    { intros Hno. by rewrite run_keeps_conversation. }
    split; [|split; [exact Hnone|]].
    + intros Hfirst. apply Hnone.
      by apply (no_request_no_response since start).
    + intros pre response post -> Hlast.
      rewrite orderly_app in Hord2.
      apply andb_true_iff in Hord2 as [_ Hord2].
      cbn [orderly] in Hord2. apply andb_true_iff in Hord2 as [Hflight _].
      rewrite run_app, run_cons.
      rewrite run_keeps_conversation; [| |exact Hlast].
      2: { intros Hin. apply Hreset. apply elem_of_app. right. by right. }
      unfold isPending in Hflight. apply bool_decide_eq_true in Hflight.
      destruct Hflight as [inflight Hflight].
      simpl. by rewrite Hflight.
Qed.

(** C9, amended. When a request that the form has sent fails, and meanwhile
    the conversation was not reset, the user message appended at submission
    is removed, so that the log is the one before the submission (the local
    id being new to the log), the pending marker is cleared, the message
    derived from the failure becomes the chat error and is displayed (unless
    the failure is an [Error] with an empty message), and the context chunks
    and the conversation id are the ones before the submission; the input,
    emptied at submission, stays empty unless something was typed, and no
    other request went out meanwhile. *)
Theorem C9_failed_request (chatbotName : string) (st st1 : PanelState)
    (localId : string) (now : ISODateTimeString)
    (payload : ChatRequestPayload) (between : list Event)
    (error : JsError) :
  handleSubmit st localId now = (st1, Some payload) →
  (∀ m, m ∈ messages st → id m ≠ localId) →
  Forall (λ ev, quiet ev = true) between →
  let st2 := (step (run st1 between).1 (Rejected error)).1 in
  messages st2 = messages st
  ∧ pendingMessageId st2 = None
  ∧ chatError st2 = Some (getErrorMessage error)
  ∧ (error ≠ PlainError "" →
     error_banner (render chatbotName st2) = Some (getErrorMessage error))
  ∧ contextChunks st2 = contextChunks st
  ∧ conversationId st2 = conversationId st
  ∧ ((∀ value, Typed value ∉ between) → inputValue st2 = "")
  ∧ isPending st2 = false
  ∧ (run st1 between).2 = [].
Proof.
  intros Hsubmit Hfresh Hquiet.
  destruct (handleSubmit_cases st) as [[Ht Hp] | Hc].
  2: { rewrite handleSubmit_ignores in Hsubmit by assumption. discriminate. }
  rewrite handleSubmit_sends in Hsubmit by assumption.
  injection Hsubmit as <- <-.
  match goal with |- context [run ?s between] => set (sent := s) end.
  destruct (run_quiet between sent Hquiet eq_refl)
    as (Hlog & Hchunks & Hid & _ & _ & Hflight & Hinput & Hnone).
  simpl. rewrite Hflight. simpl.
  rewrite Hlog, Hchunks, Hid. simpl.
  repeat split; try done.
  - rewrite filter_app, filter_keeps_all by assumption.
    rewrite filter_cons_False; [apply app_nil_r|].
    simpl. intros Hx. by apply Hx.
  - intros Hne. pose proof (getErrorMessage_shown error Hne) as Hshown.
    unfold truthy in Hshown. rewrite Hshown. reflexivity.
Qed.

(** The reply of a successful request is the last message shown, with the
    id, the author and the text of the reply and not as being sent; the
    chunks delivered are the ones displayed, in their order, and no error is
    set. *)
Lemma successful_request (chatbotName : string) (st st1 : PanelState)
    (localId : string) (now : ISODateTimeString)
    (payload : ChatRequestPayload) (response : ChatResponsePayload) :
  handleSubmit st localId now = (st1, Some payload) →
  let st2 := (step st1 (Resolved response)).1 in
  last (message_list (render chatbotName st2))
  = Some {| mv_key := msg_id (reply response);
            mv_role := if bool_decide (msg_role (reply response) = assistant)
                       then chatbotName else "You";
            mv_text := msg_content (reply response);
            mv_sending := false |}
  ∧ contextChunks st2 = context response
  ∧ context_section (render chatbotName st2)
    = (if bool_decide (context response = []) then None
       else Some (renderChunk <$> context response))
  ∧ chatError st2 = None
  ∧ error_banner (render chatbotName st2) = None
  ∧ generating (render chatbotName st2) = false
  ∧ conversationId st2 = Some (resp_conversation_id response).
Proof.
  intros Hsubmit.
  destruct (handleSubmit_cases st) as [[Ht Hp] | Hc].
  2: { rewrite handleSubmit_ignores in Hsubmit by assumption. discriminate. }
  rewrite handleSubmit_sends in Hsubmit by assumption.
  injection Hsubmit as <- <-. simpl.
  repeat split.
  - rewrite fmap_app. apply last_snoc.
  - destruct (context response); reflexivity.
Qed.

End facts.

Lemma C8_chat_request_witness :
  let first := [Typed "  How do I reset my password?  "] in
  let third :=
    [ Typed "first"; Submit "local-1" "2025-01-01T00:00:02Z";
      Resolved (answer []); ResetPressed;
      Typed "second"; Submit "local-2" "2025-01-01T00:00:04Z";
      Resolved (answer []); Typed " third " ] in
  (∃ payload,
     (handleSubmit (run initialState first).1 "local-1"
        "2025-01-01T00:00:02Z").2 = Some payload
     ∧ message payload = "How do I reset my password?"
     ∧ conversation_id payload = None)
  ∧ (∃ payload,
       (handleSubmit (run initialState third).1 "local-3"
          "2025-01-01T00:00:06Z").2 = Some payload
       ∧ message payload = "third"
       ∧ conversation_id payload = Some "conv-1").
Proof.
  intros first third. split.
  - eexists. split; [reflexivity|]. split; [reflexivity|].
    refine (proj1 (proj2 (proj2
             (C8_chat_request first "local-1" "2025-01-01T00:00:02Z"))
             eq_refl [] first _ eq_refl (or_introl eq_refl) _ eq_refl) _).
    + intros Hin.
      apply elem_of_cons in Hin as [Heq | Hin]; [discriminate Heq|].
      by apply elem_of_nil in Hin.
    + reflexivity.
  - eexists. split; [reflexivity|]. split; [reflexivity|].
    refine (proj2 (proj2 (proj2 (proj2
             (C8_chat_request third "local-3" "2025-01-01T00:00:06Z"))
             eq_refl
             [ Typed "first"; Submit "local-1" "2025-01-01T00:00:02Z";
               Resolved (answer []); ResetPressed ]
             [ Typed "second"; Submit "local-2" "2025-01-01T00:00:04Z";
               Resolved (answer []); Typed " third " ]
             _ eq_refl _ _ eq_refl))
             [ Typed "second"; Submit "local-2" "2025-01-01T00:00:04Z" ]
             (answer []) [ Typed " third " ] eq_refl _).
    + right. by exists [ Typed "first";
                         Submit "local-1" "2025-01-01T00:00:02Z";
                         Resolved (answer []) ].
    + intros Hin.
      repeat (apply elem_of_cons in Hin as [Heq | Hin];
              [discriminate Heq|]).
      by apply elem_of_nil in Hin.
    + intros later Hin.
      apply elem_of_cons in Hin as [Heq | Hin]; [discriminate Heq|].
      by apply elem_of_nil in Hin.
Defined.

(** The claim of C8 fails on the conversation id, whether a session is taken
    to last from the mount of the panel or from the last reset.  After a
    response and a reset, a later turn carries no id, although the server
    returned one; and after a reset pressed while a request was pending,
    whose response came afterwards, the first turn carries an id. *)
Lemma C8_counterexample :
  let later :=
    [ Typed "first"; Submit "local-1" "2025-01-01T00:00:02Z";
      Resolved (answer []); ResetPressed; Typed "second" ] in
  let raced :=
    [ Typed "first"; Submit "local-1" "2025-01-01T00:00:02Z";
      ResetPressed; Resolved (answer []); Typed "second" ] in
  (run initialState later).2
  = [ {| message := "first"; conversation_id := None; top_k := None |} ]
  ∧ (handleSubmit (run initialState later).1 "local-2"
       "2025-01-01T00:00:09Z").2
    = Some {| message := "second"; conversation_id := None;
              top_k := None |}
  ∧ (run initialState raced).2
    = [ {| message := "first"; conversation_id := None; top_k := None |} ]
  ∧ reset_disabled
      (render "Helper"
         (run initialState
            [ Typed "first"; Submit "local-1" "2025-01-01T00:00:02Z" ]).1)
    = false
  ∧ (handleSubmit (run initialState raced).1 "local-2"
       "2025-01-01T00:00:09Z").2
    = Some {| message := "second"; conversation_id := Some "conv-1";
              top_k := None |}.
Proof. vm_compute. repeat split. Qed.

Lemma talking_fresh :
  ∀ m, m ∈ messages talking → id m ≠ "local-1".
Proof.
  intros m Hin. unfold talking in Hin. simpl in Hin.
  repeat (apply elem_of_cons in Hin as [-> | Hin]; [discriminate|]).
  by apply elem_of_nil in Hin.
Defined.

Lemma C9_failed_request_witness :
  let st2 :=
    (ChatPanel.step
       (run (handleSubmit talking "local-1" "2025-01-01T00:00:02Z").1
            [Submit "local-9" "2025-01-01T00:00:03Z"]).1
       (Rejected (AxiosError None "Network Error"))).1 in
  messages st2 = messages talking
  ∧ pendingMessageId st2 = None
  ∧ chatError st2 = Some "Network Error"
  ∧ error_banner (render "Helper" st2) = Some "Network Error"
  ∧ contextChunks st2 = contextChunks talking
  ∧ conversationId st2 = conversationId talking
  ∧ inputValue st2 = ""
  ∧ isPending st2 = false.
Proof.
  pose proof (C9_failed_request "Helper" talking
                (handleSubmit talking "local-1" "2025-01-01T00:00:02Z").1
                "local-1" "2025-01-01T00:00:02Z"
                {| message := "How do I reset my password?";
                   conversation_id := Some "conv-1"; top_k := None |}
                [Submit "local-9" "2025-01-01T00:00:03Z"]
                (AxiosError None "Network Error")
                eq_refl talking_fresh
                ltac:(by repeat constructor))
    as (Hlog & Hpending & Herror & Hbanner & Hchunks & Hid & Hinput
        & Hflight & _).
  split; [exact Hlog|]. split; [exact Hpending|]. split; [exact Herror|].
  split; [apply Hbanner; discriminate|].
  split; [exact Hchunks|]. split; [exact Hid|].
  split; [|exact Hflight].
  apply Hinput. intros value Hin.
  apply elem_of_cons in Hin as [Heq | Hin]; [discriminate Heq|].
  by apply elem_of_nil in Hin.
Defined.

(** The claim of C9 fails in two places.  After a failed request the state
    differs from the one before the submission in more than the error, the
    text typed being gone; and when the conversation is reset while the
    request is pending, the failure leaves the emptied log and context, not
    the ones before the submission. *)
Lemma C9_counterexample :
  let sent := handleSubmit talking "local-1" "2025-01-01T00:00:02Z" in
  let st2 :=
    (ChatPanel.step sent.1 (Rejected (AxiosError None "Network Error"))).1 in
  let st3 :=
    (ChatPanel.step (handleReset sent.1)
       (Rejected (AxiosError None "Network Error"))).1 in
  is_Some sent.2
  ∧ inputValue talking = " How do I reset my password? "
  ∧ inputValue st2 = ""
  ∧ inputValue st2 ≠ inputValue talking
  ∧ reset_disabled (render "Helper" sent.1) = false
  ∧ messages st3 = []
  ∧ messages st3 ≠ messages talking
  ∧ contextChunks st3 ≠ contextChunks talking
  ∧ conversationId st3 ≠ conversationId talking.
Proof.
  repeat split; try (by eexists); discriminate.
Qed.

(** The test of the panel: a question typed and sent goes out without a
    conversation id, and the reply and the context of the response are
    shown. *)
Example sends_and_renders :
  let out :=
    run initialState
      [ Typed "How do I reset my password?";
        Submit "local-1" "2025-01-01T00:00:02Z";
        Resolved
          {| resp_conversation_id := "conv-1";
             reply := {| msg_id := "msg-assistant"; msg_role := assistant;
                         msg_content := "Hello! How can I help?";
                         msg_created_at := "2025-01-01T00:00:03Z" |};
             context :=
               [ {| chunk_id := "chunk-1"; document_id := "doc-1";
                    document_name := Some "faq.txt";
                    score := Q2Qc (9123 # 10000);
                    chunk_content :=
                      "Reset your password from the profile page." |} ];
             created_new_conversation := true |} ] in
  out.2 = [ {| message := "How do I reset my password?";
               conversation_id := None; top_k := None |} ]
  ∧ (λ m, (mv_role m, mv_text m, mv_sending m))
      <$> message_list (render "Helper" out.1)
    = [ ("You", "How do I reset my password?", false);
        ("Helper", "Hello! How can I help?", false) ]
  ∧ cv_title <$> default [] (context_section (render "Helper" out.1))
    = ["faq.txt"].
Proof. vm_compute. repeat split. Qed.

End ChatPanelFacts.

(** ** The ingestion and retrieval core *)

Module CoreFacts.
Import Core.

Lemma addAll_lookup document parts : ∀ index chunkId entry,
  addAll document parts index !! chunkId = Some entry →
  e_document entry = document ∨ index !! chunkId = Some entry.
Proof.
  unfold addAll.
  induction parts as [|part parts IH]; intros index chunkId entry;
    simpl; [auto|].
  intros Hl. apply IH in Hl as [Hd | Hl]; [auto|].
  unfold add in Hl. rewrite lookup_insert in Hl.
  case_decide; simplify_eq; auto.
Qed.

Lemma invalidate_registry document sys tenant index chunkId entry :
  (invalidate document sys).2 !! tenant = Some index →
  index !! chunkId = Some entry →
  e_document entry ≠ document
  ∧ ∃ index0, registry sys !! tenant = Some index0
              ∧ index0 !! chunkId = Some entry.
Proof.
  unfold invalidate. simpl. rewrite lookup_fmap.
  destruct (registry sys !! tenant) as [index0|] eqn:Ht; [|discriminate].
  simpl. intros [= <-]. unfold removeByDocument.
  intros [Hl Hne]%map_lookup_filter_Some. simpl in Hne. eauto.
Qed.

(** *** The invariants of the state machine *)

Lemma step_status_error_agree sys ev :
  status_error_agree sys → status_error_agree (step sys ev).
Proof.
  intros Hinv document d.
  destruct ev as [doc tenant file mime size now | doc now | doc now
                  | doc parts now | doc cause now | doc now | doc]; simpl.
  - destruct (documents sys !! doc) eqn:Hd; [apply Hinv|]. simpl.
    rewrite lookup_insert. case_decide; [|apply Hinv].
    intros [= <-]. simpl. split; [intros [? ?]|]; discriminate.
  - destruct (documents sys !! doc) as [d0|] eqn:Hd; [|apply Hinv].
    case_bool_decide; [|apply Hinv]. simpl.
    rewrite lookup_insert. case_decide; [|apply Hinv].
    intros [= <-]. simpl. split; [intros [? ?]|]; discriminate.
  - destruct (documents sys !! doc) as [d0|] eqn:Hd; [|apply Hinv].
    case_bool_decide; [|apply Hinv]. simpl.
    rewrite lookup_insert. case_decide; [|apply Hinv].
    intros [= <-]. simpl. split; [intros [? ?]|]; discriminate.
  - destruct (documents sys !! doc) as [d0|] eqn:Hd; [|apply Hinv].
    destruct (bool_decide (d_status d0 = processing) && freshParts parts sys);
      [|apply Hinv]. simpl.
    rewrite lookup_insert. case_decide; [|apply Hinv].
    intros [= <-]. simpl. split; [intros [? ?]|]; discriminate.
  - destruct (documents sys !! doc) as [d0|] eqn:Hd; [|apply Hinv].
    case_bool_decide; [|apply Hinv]. simpl.
    rewrite lookup_insert. case_decide; [|apply Hinv].
    intros [= <-]. simpl. split; eauto.
  - destruct (documents sys !! doc) as [d0|] eqn:Hd; [|apply Hinv].
    case_bool_decide; [|apply Hinv]. simpl.
    rewrite lookup_insert. case_decide; [|apply Hinv].
    intros [= <-]. simpl. split; [intros [? ?]|]; discriminate.
  - rewrite lookup_delete. case_decide; [discriminate|apply Hinv].
Qed.

Lemma step_index_of_ready sys ev :
  index_of_ready sys → index_of_ready (step sys ev).
Proof.
  intros Hinv tenant index chunkId entry.
  destruct ev as [doc tenant' file mime size now | doc now | doc now
                  | doc parts now | doc cause now | doc now | doc]; simpl.
  - destruct (documents sys !! doc) eqn:Hd; [apply Hinv|]. simpl.
    intros Ht Hc. destruct (Hinv _ _ _ _ Ht Hc) as (d & Hl & Hs & Hten).
    exists d. rewrite lookup_insert_ne by congruence. done.
  - destruct (documents sys !! doc) as [d0|] eqn:Hd; [|apply Hinv].
    case_bool_decide as Hst; [|apply Hinv]. simpl.
    intros Ht Hc. destruct (Hinv _ _ _ _ Ht Hc) as (d & Hl & Hs & Hten).
    exists d. rewrite lookup_insert_ne by congruence. done.
  - destruct (documents sys !! doc) as [d0|] eqn:Hd; [|apply Hinv].
    case_bool_decide as Hst; [|apply Hinv]. simpl.
    intros Ht Hc. destruct (Hinv _ _ _ _ Ht Hc) as (d & Hl & Hs & Hten).
    exists d. rewrite lookup_insert_ne by congruence. done.
  - destruct (documents sys !! doc) as [d0|] eqn:Hd; [|apply Hinv].
    destruct (bool_decide (d_status d0 = processing)) eqn:Hst;
      [|apply Hinv].
    apply bool_decide_eq_true in Hst.
    destruct (freshParts parts sys); [|apply Hinv]. simpl.
    assert (Hold : ∀ t i c e, registry sys !! t = Some i → i !! c = Some e →
              ∃ d, <[doc := transition ready None now d0]> (documents sys)
                     !! e_document e = Some d
                   ∧ d_status d = ready ∧ tenant_id d = t).
    { intros t i c e Ht Hc.
      destruct (Hinv _ _ _ _ Ht Hc) as (d & Hl & Hs & Hten).
      exists d. rewrite lookup_insert_ne by congruence. done. }
    rewrite lookup_insert. case_decide as Hten; [|by apply Hold].
    intros [= <-] Hc. apply addAll_lookup in Hc as [Hdoc | Hc].
    + exists (transition ready None now d0).
      rewrite Hdoc, lookup_insert_eq. done.
    + unfold tenantIndex in Hc.
      destruct (registry sys !! tenant_id d0) as [i|] eqn:Ht; simpl in Hc.
      * subst tenant. by eapply Hold.
      * by rewrite lookup_empty in Hc.
  - destruct (documents sys !! doc) as [d0|] eqn:Hd; [|apply Hinv].
    case_bool_decide as Hst; [|apply Hinv]. simpl.
    intros Ht Hc. destruct (Hinv _ _ _ _ Ht Hc) as (d & Hl & Hs & Hten).
    exists d. rewrite lookup_insert_ne by congruence. done.
  - destruct (documents sys !! doc) as [d0|] eqn:Hd; [|apply Hinv].
    case_bool_decide as Hst; [|apply Hinv]. simpl.
    intros Ht Hc.
    destruct (invalidate_registry doc sys tenant index chunkId entry Ht Hc)
      as (Hne & index0 & Ht0 & Hc0).
    destruct (Hinv _ _ _ _ Ht0 Hc0) as (d & Hl & Hs & Hten).
    exists d. rewrite lookup_insert_ne by congruence. done.
  - intros Ht Hc.
    destruct (invalidate_registry doc sys tenant index chunkId entry Ht Hc)
      as (Hne & index0 & Ht0 & Hc0).
    destruct (Hinv _ _ _ _ Ht0 Hc0) as (d & Hl & Hs & Hten).
    exists d. rewrite lookup_delete_ne by congruence. done.
Qed.

Lemma after_snoc history ev : after (history ++ [ev]) = step (after history) ev.
Proof. unfold after. by rewrite foldl_app. Qed.

(** Both invariants hold after every history. *)
Lemma after_invariants history :
  status_error_agree (after history) ∧ index_of_ready (after history).
Proof.
  induction history as [|ev history [IH1 IH2]] using rev_ind.
  - split.
    + intros document d Hl. cbn in Hl. by rewrite lookup_empty in Hl.
    + intros tenant index chunkId entry Hl. cbn in Hl.
      by rewrite lookup_empty in Hl.
  - rewrite after_snoc. split.
    + by apply step_status_error_agree.
    + by apply step_index_of_ready.
Qed.

(** *** The index and the persisted chunks *)

Lemma addAll_lookup_parts document parts : ∀ index chunkId entry,
  addAll document parts index !! chunkId = Some entry →
  (e_document entry = document ∧ chunkId ∈ parts.*1)
  ∨ index !! chunkId = Some entry.
Proof.
  unfold addAll.
  induction parts as [|part parts IH]; intros index chunkId entry;
    simpl; [auto|].
  intros Hl. apply IH in Hl as [[Hd Hin] | Hl].
  - left. split; [done | by right].
  - unfold add in Hl. rewrite lookup_insert in Hl.
    case_decide; simplify_eq; [|auto].
    left. split; [done | by left].
Qed.

Lemma persistChunks_other document parts : ∀ sequence table chunkId,
  chunkId ∉ parts.*1 →
  persistChunks document sequence parts table !! chunkId
  = table !! chunkId.
Proof.
  induction parts as [|[part [text vector]] parts IH];
    intros sequence table chunkId Hnotin; simpl; [reflexivity|].
  rewrite IH.
  - apply lookup_insert_ne. intros ->. apply Hnotin. by left.
  - intros Hin. apply Hnotin. by right.
Qed.

Lemma persistChunks_part document parts : ∀ sequence table chunkId,
  chunkId ∈ parts.*1
  ∨ (∃ chunk, table !! chunkId = Some chunk
              ∧ c_document chunk = document) →
  ∃ chunk, persistChunks document sequence parts table !! chunkId
           = Some chunk
           ∧ c_document chunk = document.
Proof.
  induction parts as [|[part [text vector]] parts IH];
    intros sequence table chunkId Hin; simpl.
  - destruct Hin as [Hin | Hin]; [by apply elem_of_nil in Hin | exact Hin].
  - apply IH. destruct (decide (chunkId = part)) as [-> | Hne].
    + right. eexists. by rewrite lookup_insert_eq.
    + destruct Hin as [Hin | Hin].
      * left. simpl in Hin. apply elem_of_cons in Hin as [? | ?]; done.
      * right. by rewrite lookup_insert_ne.
Qed.

Lemma freshParts_new parts sys chunkId :
  freshParts parts sys = true → chunkId ∈ parts.*1 →
  chunks sys !! chunkId = None.
Proof.
  unfold freshParts. intros [_ Hall]%andb_true_iff Hin.
  apply list_elem_of_fmap in Hin as (part & -> & Hin).
  rewrite forallb_forall in Hall.
  apply list_elem_of_In, Hall in Hin. by apply bool_decide_eq_true in Hin.
Qed.

Lemma invalidate_chunks document sys chunkId chunk :
  chunks sys !! chunkId = Some chunk → c_document chunk ≠ document →
  (invalidate document sys).1.1 !! chunkId = Some chunk.
Proof.
  intros Hl Hne. unfold invalidate. simpl.
  by apply map_lookup_filter_Some.
Qed.

Lemma step_index_of_chunks sys ev :
  index_of_chunks sys → index_of_chunks (step sys ev).
Proof.
  intros Hinv tenant index chunkId entry.
  destruct ev as [doc tenant' file mime size now | doc now | doc now
                  | doc parts now | doc cause now | doc now | doc]; simpl.
  - destruct (documents sys !! doc); apply Hinv.
  - destruct (documents sys !! doc) as [d0|]; [|apply Hinv].
    case_bool_decide; apply Hinv.
  - destruct (documents sys !! doc) as [d0|]; [|apply Hinv].
    case_bool_decide; apply Hinv.
  - destruct (documents sys !! doc) as [d0|]; [|apply Hinv].
    destruct (bool_decide (d_status d0 = processing)); [|apply Hinv].
    destruct (freshParts parts sys) eqn:Hfresh; [|apply Hinv]. simpl.
    assert (Hold : ∀ t i c e, registry sys !! t = Some i → i !! c = Some e →
              ∃ chunk, persistChunks doc 0 parts (chunks sys) !! c
                       = Some chunk
                       ∧ c_document chunk = e_document e).
    { intros t i c e Ht Hc.
      destruct (Hinv _ _ _ _ Ht Hc) as (chunk & Hl & Hdoc).
      exists chunk. split; [|exact Hdoc].
      rewrite persistChunks_other; [exact Hl|].
      intros Hin. apply (freshParts_new _ _ _ Hfresh) in Hin. congruence. }
    rewrite lookup_insert. case_decide as Hten; [|by apply Hold].
    intros [= <-] Hc. apply addAll_lookup_parts in Hc as [[Hdoc Hin] | Hc].
    + rewrite Hdoc. apply persistChunks_part. by left.
    + unfold tenantIndex in Hc.
      destruct (registry sys !! tenant_id d0) as [i|] eqn:Ht; simpl in Hc.
      * by eapply Hold.
      * by rewrite lookup_empty in Hc.
  - destruct (documents sys !! doc) as [d0|]; [|apply Hinv].
    case_bool_decide; apply Hinv.
  - destruct (documents sys !! doc) as [d0|]; [|apply Hinv].
    case_bool_decide; [|apply Hinv]. simpl.
    intros Ht Hc.
    destruct (invalidate_registry doc sys tenant index chunkId entry Ht Hc)
      as (Hne & index0 & Ht0 & Hc0).
    destruct (Hinv _ _ _ _ Ht0 Hc0) as (chunk & Hl & Hdoc).
    exists chunk. split; [|exact Hdoc].
    apply (invalidate_chunks doc sys) in Hl; [exact Hl | congruence].
  - intros Ht Hc.
    destruct (invalidate_registry doc sys tenant index chunkId entry Ht Hc)
      as (Hne & index0 & Ht0 & Hc0).
    destruct (Hinv _ _ _ _ Ht0 Hc0) as (chunk & Hl & Hdoc).
    exists chunk. split; [|exact Hdoc].
    apply (invalidate_chunks doc sys) in Hl; [exact Hl | congruence].
Qed.

(** After every history, the index holds only vectors of persisted
    chunks. *)
Lemma after_index_of_chunks history : index_of_chunks (after history).
Proof.
  induction history as [|ev history IH] using rev_ind.
  - intros tenant index chunkId entry Hl. cbn in Hl.
    by rewrite lookup_empty in Hl.
  - rewrite after_snoc. by apply step_index_of_chunks.
Qed.

(** *** The ranking *)

Global Instance ranks_before_total : Total ranks_before.
Proof.
  intros a b. unfold ranks_before.
  destruct (Qclt_le_dec b.2 a.2) as [Hlt | Hle]; [by left; left|].
  apply Qcle_lt_or_eq in Hle as [Hlt | Heq]; [by right; left|].
  destruct (total String.le a.1 b.1); [left | right]; right; done.
Qed.

Global Instance ranks_before_trans : Transitive ranks_before.
Proof.
  intros a b c [Hab | [Hab Hab']] [Hbc | [Hbc Hbc']]; unfold ranks_before.
  - left. by eapply Qclt_trans.
  - left. by rewrite <- Hbc.
  - left. by rewrite Hab.
  - right. split; [congruence | by etrans].
Qed.

Section ranking.
Variable similarity : Vector → Vector → Qc.

Lemma scores_keys index vector :
  (scores similarity index vector).*1 = (map_to_list index).*1.
Proof.
  unfold scores. rewrite <- list_fmap_compose. by apply list_fmap_ext.
Qed.

Lemma query_length index vector k :
  (length (query similarity index vector k) ≤ k)%nat.
Proof. unfold query. rewrite length_take. lia. Qed.

Lemma query_sorted index vector k :
  StronglySorted ranks_before (query similarity index vector k).
Proof.
  unfold query.
  pose proof (StronglySorted_merge_sort ranks_before
                (scores similarity index vector)) as Hs.
  set (sorted := merge_sort ranks_before (scores similarity index vector))
    in *.
  rewrite <- (take_drop k sorted) in Hs.
  by apply StronglySorted_app_1_l in Hs.
Qed.

Lemma query_NoDup index vector k :
  NoDup (query similarity index vector k).*1.
Proof.
  unfold query.
  assert (Hnd : NoDup (merge_sort ranks_before
                         (scores similarity index vector)).*1).
  { rewrite merge_sort_Permutation, scores_keys.
    apply NoDup_fst_map_to_list. }
  set (sorted := merge_sort ranks_before (scores similarity index vector))
    in *.
  rewrite <- (take_drop k sorted), fmap_app in Hnd.
  by apply NoDup_app in Hnd as [? _].
Qed.

Lemma sorted_strictly (results : list (string * Qc)) :
  StronglySorted ranks_before results → NoDup results.*1 →
  StronglySorted ranks_strictly_before results.
Proof.
  induction 1 as [|a results Hs IH Hall]; intros Hnd; constructor.
  - apply IH. by apply NoDup_cons in Hnd as [_ ?].
  - apply NoDup_cons in Hnd as [Hnotin _].
    rewrite Forall_forall in Hall. apply Forall_forall. intros b Hb.
    destruct (Hall b Hb) as [Hlt | [Heq Hle]]; [by left|].
    right. repeat split; [done..|].
    intros Hkey. apply Hnotin. rewrite Hkey.
    by apply list_elem_of_fmap_2.
Qed.

(** Membership in an index, through the scores. *)
Lemma elem_of_scores index vector hit :
  hit ∈ scores similarity index vector ↔
  ∃ entry, index !! hit.1 = Some entry
           ∧ hit.2 = similarity vector (e_vector entry).
Proof.
  unfold scores. rewrite list_elem_of_fmap. split.
  - intros [[chunkId entry] [-> Hin]]. apply elem_of_map_to_list in Hin.
    eauto.
  - intros [entry [Hl Hs]]. exists (hit.1, entry). split.
    + destruct hit; simpl in *; congruence.
    + by apply elem_of_map_to_list.
Qed.

(** The best match: the single result of a query for one. *)
Lemma query_one index vector :
  index ≠ ∅ →
  ∃ chunkId entry,
    index !! chunkId = Some entry
    ∧ query similarity index vector 1
      = [(chunkId, similarity vector (e_vector entry))]
    ∧ ∀ chunkId' entry', index !! chunkId' = Some entry' →
        (similarity vector (e_vector entry')
         ≤ similarity vector (e_vector entry))%Qc.
Proof.
  intros Hne. unfold query.
  pose proof (StronglySorted_merge_sort ranks_before
                (scores similarity index vector)) as Hs.
  pose proof (merge_sort_Permutation ranks_before
                (scores similarity index vector)) as Hp.
  destruct (merge_sort ranks_before (scores similarity index vector))
    as [|best rest] eqn:Hm.
  { apply Permutation_nil_l in Hp. exfalso. apply Hne.
    apply map_to_list_empty_iff. unfold scores in Hp.
    symmetry in Hp. by apply fmap_nil_inv in Hp. }
  assert (Hbest : best ∈ scores similarity index vector)
    by (rewrite <- Hp; by left).
  apply elem_of_scores in Hbest as (entry & Hl & Hscore).
  exists best.1, entry. split; [done|]. split.
  { simpl. rewrite <- Hscore. by destruct best. }
  intros chunkId' entry' Hl'.
  assert (Hin : (chunkId', similarity vector (e_vector entry'))
                ∈ best :: rest).
  { rewrite Hp. apply elem_of_scores. eauto. }
  rewrite <- Hscore.
  apply elem_of_cons in Hin as [Heq | Hin].
  - rewrite <- Heq. simpl. apply Qcle_refl.
  - apply StronglySorted_inv in Hs as [_ Hall].
    rewrite Forall_forall in Hall.
    destruct (Hall _ Hin) as [Hlt | [Heq _]]; simpl in *.
    + by apply Qclt_le_weak.
    + rewrite Heq. apply Qcle_refl.
Qed.


Variable embed : string → Vector.
Variable default_k : nat.

Lemma effective_k_bound k : (effective_k default_k k ≤ MAX_K)%nat.
Proof. unfold effective_k. lia. Qed.

(** The chunks retrieved are the hits of the query that resolve, in the
    order of the query. *)
Lemma retrieve_order sys tenant queryText k :
  (λ c, (chunk_id c, score c))
    <$> retrieve similarity embed default_k sys tenant queryText k
  `sublist_of`
  query similarity (tenantIndex sys tenant) (embed queryText)
    (effective_k default_k k).
Proof.
  unfold retrieve.
  induction (query similarity (tenantIndex sys tenant) (embed queryText)
               (effective_k default_k k)) as [|hit hits IH]; simpl.
  - constructor.
  - unfold resolve at 1. destruct (chunks sys !! hit.1) as [chunk|]; simpl.
    + destruct hit. by constructor.
    + by constructor.
Qed.

(** A hit of a query is a vector of the index, with its score. *)
Lemma elem_of_query index vector k hit :
  hit ∈ query similarity index vector k →
  ∃ entry, index !! hit.1 = Some entry
           ∧ hit.2 = similarity vector (e_vector entry).
Proof.
  unfold query. intros Hin. apply subseteq_take in Hin.
  rewrite merge_sort_Permutation in Hin. by apply elem_of_scores.
Qed.

Lemma tenantIndex_lookup sys tenant chunkId entry :
  tenantIndex sys tenant !! chunkId = Some entry →
  ∃ index, registry sys !! tenant = Some index
           ∧ index !! chunkId = Some entry.
Proof.
  unfold tenantIndex.
  destruct (registry sys !! tenant) as [index|]; simpl; [eauto|].
  by rewrite lookup_empty.
Qed.

(** When the index holds only vectors of persisted chunks, every hit of
    the query resolves: none is dropped. *)
Lemma retrieve_all sys tenant queryText k :
  index_of_chunks sys →
  (λ c, (chunk_id c, score c))
    <$> retrieve similarity embed default_k sys tenant queryText k
  = query similarity (tenantIndex sys tenant) (embed queryText)
      (effective_k default_k k).
Proof.
  intros Hinv. unfold retrieve.
  assert (Hall : ∀ hit,
            hit ∈ query similarity (tenantIndex sys tenant)
                    (embed queryText) (effective_k default_k k) →
            is_Some (chunks sys !! hit.1)).
  { intros hit (entry & Hl & _)%elem_of_query.
    apply tenantIndex_lookup in Hl as (index & Ht & Hc).
    destruct (Hinv _ _ _ _ Ht Hc) as (chunk & Hchunk & _). eauto. }
  induction (query similarity (tenantIndex sys tenant) (embed queryText)
               (effective_k default_k k)) as [|hit hits IH]; [reflexivity|].
  simpl. destruct (Hall hit) as [chunk Hchunk]; [by left|].
  unfold resolve at 1. rewrite Hchunk. simpl. f_equal.
  - by destruct hit.
  - apply IH. intros other Hin. apply Hall. by right.
Qed.

(** What a chunk retrieved is made of: the text of the persisted chunk, the
    name of the READY document of the tenant that owns it, and the score of
    its vector against the query. *)
Lemma retrieve_resolved sys tenant queryText k found :
  index_of_ready sys → index_of_chunks sys →
  found ∈ retrieve similarity embed default_k sys tenant queryText k →
  ∃ chunk d entry,
    chunks sys !! chunk_id found = Some chunk
    ∧ chunk_content found = c_text chunk
    ∧ document_id found = c_document chunk
    ∧ documents sys !! c_document chunk = Some d
    ∧ tenant_id d = tenant ∧ d_status d = ready
    ∧ document_name found = Some (d_file_name d)
    ∧ tenantIndex sys tenant !! chunk_id found = Some entry
    ∧ score found = similarity (embed queryText) (e_vector entry).
Proof.
  intros Hready Hchunks. unfold retrieve.
  intros (hit & Hin & Hres)%list_elem_of_omap.
  apply elem_of_query in Hin as (entry & Hl & Hscore).
  pose proof Hl as (index & Ht & Hc)%tenantIndex_lookup.
  destruct (Hchunks _ _ _ _ Ht Hc) as (chunk & Hchunk & Hdoc).
  destruct (Hready _ _ _ _ Ht Hc) as (d & Hd & Hstatus & Htenant).
  unfold resolve in Hres. rewrite Hchunk in Hres. simpl in Hres.
  injection Hres as <-. simpl.
  exists chunk, d, entry. rewrite Hdoc, Hd. done.
Qed.



End ranking.

End CoreFacts.

(** ** The creation form *)

Module ChatbotsPageFacts.
Import ChatbotsPage Sample.

Lemma Qc_lt_of_Z (q : Qc) (b : Z) :
  Qden (this q) = 1%positive →
  (q < Qc_of_Z b)%Qc ↔ (Qnum (this q) < b)%Z.
Proof. intros Hden. unfold Qclt, Qlt. simpl. rewrite Hden. lia. Qed.

Lemma Qc_of_Z_lt (q : Qc) (a : Z) :
  Qden (this q) = 1%positive →
  (Qc_of_Z a < q)%Qc ↔ (a < Qnum (this q))%Z.
Proof. intros Hden. unfold Qclt, Qlt. simpl. rewrite Hden. lia. Qed.

(** The checks of [top_k] pass exactly on the integers from 1 to 20. *)
Lemma top_k_checks (n : JsNumber) :
  number_checks true 1 20 n = []
  ↔ ∃ k : Z, integer_value n = Some k ∧ (1 ≤ k ≤ 20)%Z.
Proof.
  destruct n as [| | | q]; simpl.
  - split; [discriminate | intros (k & [=] & _)].
  - split; [discriminate | intros (k & [=] & _)].
  - split; [discriminate | intros (k & [=] & _)].
  - case_bool_decide as Hden; simpl.
    + unfold of_Z. split.
      * intros Hnil. exists (Qnum (this q)). split; [done|].
        repeat case_bool_decide; try discriminate.
        rewrite Qc_lt_of_Z in * by done. rewrite Qc_of_Z_lt in * by done.
        lia.
      * intros (k & [= <-] & Hk).
        rewrite bool_decide_false by (rewrite Qc_lt_of_Z by done; lia).
        rewrite bool_decide_false by (rewrite Qc_of_Z_lt by done; lia).
        reflexivity.
    + split; [discriminate | intros (k & [=] & _)].
Qed.

Section form.
Context `{JsBuiltins}.

Lemma schema_accepts raw data :
  chatbotFormSchema raw = inr data →
  number_checks true 1 20 (Number_ (raw_top_k raw)) = []
  ∧ data_top_k data = Number_ (raw_top_k raw).
Proof.
  unfold chatbotFormSchema. simpl.
  destruct (string_min 1 "Name is required" (raw_name raw));
    [|discriminate].
  destruct (string_min 1 "Provider is required" (raw_model_provider raw));
    [|discriminate].
  destruct (string_min 1 "Model is required" (raw_model_name raw));
    [|discriminate].
  destruct (optional_string_max 5000 "Prompt is too long"
              (raw_system_prompt raw)); [|discriminate].
  destruct (number_checks false 0 1 (Number_ (raw_temperature raw)));
    [|discriminate].
  destruct (number_checks true 1 20 (Number_ (raw_top_k raw)));
    [|discriminate].
  intros [= <-]. done.
Qed.

Lemma schema_rejects raw :
  number_checks true 1 20 (Number_ (raw_top_k raw)) ≠ [] →
  ∃ issues, chatbotFormSchema raw = inl issues
            ∧ issues_top_k issues
              = number_checks true 1 20 (Number_ (raw_top_k raw)).
Proof.
  intros Hne. unfold chatbotFormSchema. simpl.
  destruct (string_min 1 "Name is required" (raw_name raw));
    [|eexists; split; reflexivity].
  destruct (string_min 1 "Provider is required" (raw_model_provider raw));
    [|eexists; split; reflexivity].
  destruct (string_min 1 "Model is required" (raw_model_name raw));
    [|eexists; split; reflexivity].
  destruct (optional_string_max 5000 "Prompt is too long"
              (raw_system_prompt raw)); [|eexists; split; reflexivity].
  destruct (number_checks false 0 1 (Number_ (raw_temperature raw)));
    [|eexists; split; reflexivity].
  destruct (number_checks true 1 20 (Number_ (raw_top_k raw)));
    [done | eexists; split; reflexivity].
Qed.

(** C1. A submission of the creation form calls [createChatbot] only when
    the submitted [top_k] reads as an integer between 1 and 20, and the
    payload carries that number; when it does not read as one, the
    validation fails, an error is recorded for the field and [createChatbot]
    is not called. *)
Theorem C1_createChatbot_top_k (st : PageState) :
  let out := handleSubmit st in
  (∀ payload : CreateChatbotInput,
     out.2 = Some payload →
     top_k_in_range st
     ∧ input_top_k payload = Some (Number_ (form_top_k (formState st))))
  ∧ (¬ top_k_in_range st →
     out.2 = None ∧ is_Some (err_top_k (formErrors out.1))).
Proof.
  unfold handleSubmit, top_k_in_range.
  set (raw := {| raw_name := name (formState st);
                 raw_top_k := form_top_k (formState st) |}).
  split.
  - intros payload.
    destruct (chatbotFormSchema raw) as [issues | data] eqn:Hparse;
      simpl; [discriminate|].
    intros [= <-]. simpl.
    apply schema_accepts in Hparse as [Hchecks ->].
    apply top_k_checks in Hchecks. done.
  - intros Hout.
    assert (Hne : number_checks true 1 20 (Number_ (raw_top_k raw)) ≠ [])
      by (intros Hnil; apply Hout, top_k_checks, Hnil).
    destruct (schema_rejects raw Hne) as (issues & -> & Hissues). simpl.
    split; [done|]. rewrite Hissues.
    destruct (number_checks true 1 20 (Number_ (raw_top_k raw)));
      [done | by eexists].
Qed.

End form.

Lemma C1_createChatbot_top_k_witness :
  top_k_in_range filled
  ∧ (handleSubmit overflowing).2 = None
  ∧ is_Some (err_top_k (formErrors (handleSubmit overflowing).1)).
Proof.
  split.
  - apply (proj1 (C1_createChatbot_top_k filled)
             {| input_name := "Support Bot";
                input_model_provider := "gemini";
                input_model_name := "models/gemini-2.5-flash";
                input_system_prompt := Some "Answer with context";
                input_temperature := Some (Number_ "0.3");
                input_top_k := Some (Number_ "5") |}).
    reflexivity.
  - apply (proj2 (C1_createChatbot_top_k overflowing)).
    intros (k & Hk & Hrange). vm_compute in Hk.
    injection Hk as <-. destruct Hrange as [_ Hhi]. apply Hhi. reflexivity.
Defined.

(** The test of the page: the form filled with Top K 5 and temperature 0.3
    reaches [createChatbot] with these numbers. *)
Example creates_chatbot :
  (λ payload,
     (input_name payload, input_model_provider payload,
      input_model_name payload, input_system_prompt payload,
      integer_value <$> input_top_k payload))
    <$> (handleSubmit filled).2
  = Some ("Support Bot", "gemini", "models/gemini-2.5-flash",
          Some "Answer with context", Some (Some 5%Z)).
Proof. vm_compute. reflexivity. Qed.

(** Top K 2.5, 0, 21, and a word: each is refused with its first issue. *)
Example refuses_top_k :
  (λ text,
     let out := handleSubmit
                  {| formState :=
                       {| name := "Support Bot"; model_provider := "gemini";
                          model_name := "models/gemini-2.5-flash";
                          system_prompt := ""; temperature := "0.3";
                          form_top_k := text |};
                     formErrors := noErrors; serverError := None |} in
     (bool_decide (out.2 = None), err_top_k (formErrors out.1)))
    <$> ["2.5"; "0"; "21"; "five"]
  = [(true, Some NotInteger); (true, Some TooSmall); (true, Some TooBig);
     (true, Some InvalidType)].
Proof. vm_compute. reflexivity. Qed.

End ChatbotsPageFacts.

(** ** Documents and their status *)

Module DocumentFacts.
Import ChatbotDetailPage Core CoreFacts Sample.

Lemma elem_of_listDocuments sys tenant cd :
  cd ∈ listDocuments sys tenant ↔
  ∃ document d, documents sys !! document = Some d
                ∧ tenant_id d = tenant ∧ cd = expose document d.
Proof.
  unfold listDocuments. rewrite list_elem_of_fmap. split.
  - intros [[document d] [-> Hin]].
    apply elem_of_map_to_list, map_lookup_filter_Some in Hin as [Hl Ht].
    eauto.
  - intros (document & d & Hl & Ht & ->). exists (document, d).
    split; [done|]. by apply elem_of_map_to_list, map_lookup_filter_Some.
Qed.

(** A document enters the system as PENDING, without an error. *)
Lemma step_enters_pending sys ev document d :
  documents sys !! document = None →
  documents (step sys ev) !! document = Some d →
  d_status d = pending ∧ d_error d = None.
Proof.
  intros Hnone.
  destruct ev as [doc tenant file mime size now | doc now | doc now
                  | doc parts now | doc cause now | doc now | doc]; simpl.
  - destruct (documents sys !! doc) eqn:Hd; simpl; [congruence|].
    rewrite lookup_insert. case_decide; [|congruence].
    by intros [= <-].
  - destruct (documents sys !! doc) as [d0|] eqn:Hd; [|congruence].
    case_bool_decide; [|congruence]. simpl.
    rewrite lookup_insert_ne by congruence. congruence.
  - destruct (documents sys !! doc) as [d0|] eqn:Hd; [|congruence].
    case_bool_decide; [|congruence]. simpl.
    rewrite lookup_insert_ne by congruence. congruence.
  - destruct (documents sys !! doc) as [d0|] eqn:Hd; [|congruence].
    destruct (bool_decide (d_status d0 = processing) && freshParts parts sys);
      [|congruence]. simpl.
    rewrite lookup_insert_ne by congruence. congruence.
  - destruct (documents sys !! doc) as [d0|] eqn:Hd; [|congruence].
    case_bool_decide; [|congruence]. simpl.
    rewrite lookup_insert_ne by congruence. congruence.
  - destruct (documents sys !! doc) as [d0|] eqn:Hd; [|congruence].
    case_bool_decide; [|congruence]. simpl.
    rewrite lookup_insert_ne by congruence. congruence.
  - rewrite lookup_delete. case_decide; congruence.
Qed.

Lemma documentStatusLabels_lookup key :
  documentStatusLabels !! key
  = if decide (key = "pending") then Some "Pending"
    else if decide (key = "processing") then Some "Processing"
    else if decide (key = "ready") then Some "Ready"
    else if decide (key = "failed") then Some "Failed"
    else None.
Proof.
  unfold documentStatusLabels. simpl. rewrite !lookup_insert, lookup_empty.
  repeat case_decide; congruence.
Qed.

(** C2. The status of a document is exactly one of the four states pending,
    processing, ready and failed; a document enters the system as pending;
    and the labels of the listing are defined on the literals of these four
    states and on no other key, each state having its label. *)
Theorem C2_document_status :
  (∀ s : DocumentStatus, s ∈ [pending; processing; ready; failed])
  ∧ NoDup [pending; processing; ready; failed]
  ∧ (∀ sys ev document d,
       documents sys !! document = None →
       documents (step sys ev) !! document = Some d →
       d_status d = pending)
  ∧ (∀ key : string,
       is_Some (documentStatusLabels !! key)
       ↔ ∃ s : DocumentStatus, key = status_literal s)
  ∧ (∀ s : DocumentStatus,
       documentStatusLabels !! status_literal s = Some (statusLabel s))
  ∧ statusLabel <$> [pending; processing; ready; failed]
    = ["Pending"; "Processing"; "Ready"; "Failed"].
Proof.
  split; [|split; [|split; [|split; [|split; [|reflexivity]]]]].
  - intros []; set_solver.
  - apply (bool_decide_unpack _). reflexivity.
  - intros sys ev document d Hnone Hsome.
    by destruct (step_enters_pending sys ev document d Hnone Hsome).
  - intros key. rewrite documentStatusLabels_lookup. split.
    + destruct (decide (key = "pending")) as [->|]; [by exists pending|].
      destruct (decide (key = "processing")) as [->|];
        [by exists processing|].
      destruct (decide (key = "ready")) as [->|]; [by exists ready|].
      destruct (decide (key = "failed")) as [->|]; [by exists failed|].
      by intros [? ?].
    + intros [[] ->]; simpl; eauto.
  - intros []; reflexivity.
Qed.

Lemma C2_document_status_witness : d_status uploaded = pending.
Proof.
  apply (proj1 (proj2 (proj2 C2_document_status)) emptySystem
           (Upload "doc-1" "bot-1" "faq.txt" "text/plain" 42
              "2025-01-01T00:00:00Z") "doc-1" uploaded);
    reflexivity.
Defined.

(** C3. After every history of the job controller, a document that the
    listing shows has an error exactly when its status is failed; so the
    table shows an error only under failed documents. *)
Theorem C3_error_iff_failed (history : list JobEvent) (tenant : string)
    (document : ChatbotDocument) :
  document ∈ listDocuments (after history) tenant →
  (is_Some (error document) ↔ status document = failed)
  ∧ (is_Some (row_error (renderRow document)) → status document = failed).
Proof.
  intros (key & d & Hl & Ht & ->)%elem_of_listDocuments.
  destruct (after_invariants history) as [Hagree _].
  specialize (Hagree key d Hl). simpl. split; [exact Hagree|].
  destruct (truthy (d_error d)); [apply Hagree | by intros [? ?]].
Qed.

Lemma C3_error_iff_failed_witness :
  (is_Some (error failed_document) ↔ status failed_document = failed)
  ∧ (is_Some (row_error (renderRow failed_document))
     → status failed_document = failed).
Proof.
  apply (C3_error_iff_failed broken "bot-1" failed_document).
  vm_compute. apply list_elem_of_here.
Defined.

(** C7, amended. A document record of the public interface carries its id,
    file name, mime type, size, status, error (a message or null) and the
    two timestamps, under the keys of the type; it carries no tenant id. *)
Theorem C7_document_attributes (d : ChatbotDocument) :
  (∀ a : DocumentAttribute, a ≠ AttrTenantId → carries d a)
  ∧ ¬ carries d AttrTenantId
  ∧ (ChatbotDocument_entries d).*1
    = ["id"; "file_name"; "mime_type"; "size_bytes"; "status"; "error";
       "created_at"; "updated_at"]
  ∧ ("error", from_option JString JNull (error d))
    ∈ ChatbotDocument_entries d.
Proof.
  split; [|split; [|split]].
  - intros a Ha. unfold carries, ChatbotDocument_entries.
    destruct a; [| done | | | | | |].
    + exists "id", (JString (doc_id d)). split; [set_solver | done].
    + exists "file_name", (JString (file_name d)).
      split; [set_solver | done].
    + exists "mime_type", (JString (mime_type d)).
      split; [set_solver | done].
    + exists "size_bytes", (JNumber (size_bytes d)).
      split; [set_solver | done].
    + exists "status", (JString (status_literal (status d))).
      split; [set_solver | done].
    + exists "error", (from_option JString JNull (error d)).
      split; [set_solver | done].
    + exists "created_at", (JString (doc_created_at d)).
      split; [set_solver | done].
  - intros (key & value & Hin & Hattr). unfold ChatbotDocument_entries in Hin.
    repeat (apply elem_of_cons in Hin as [[= -> ->] | Hin];
            [vm_compute in Hattr; discriminate Hattr|]).
    by apply elem_of_nil in Hin.
  - reflexivity.
  - unfold ChatbotDocument_entries. set_solver.
Qed.

Lemma C7_document_attributes_witness : carries failed_document AttrStatus.
Proof.
  apply (proj1 (C7_document_attributes failed_document) AttrStatus).
  discriminate.
Defined.

(** The claim of C7 fails on the tenant id: a document of the listing
    carries none. *)
Lemma C7_counterexample :
  ¬ (∀ a : DocumentAttribute, carries failed_document a).
Proof.
  intros Hall. destruct (Hall AttrTenantId) as (key & value & Hin & Hattr).
  unfold ChatbotDocument_entries in Hin.
  repeat (apply elem_of_cons in Hin as [[= -> ->] | Hin];
          [vm_compute in Hattr; discriminate Hattr|]).
  by apply elem_of_nil in Hin.
Qed.

End DocumentFacts.

(** ** Retrieval, from the index to the panel *)

Module RetrievalFacts.
Import Api ChatPanel ChatPanelFacts Core CoreFacts Sample.

Lemma StronglySorted_weaken {A} (R1 R2 : relation A) (l : list A) :
  (∀ a b, R1 a b → R2 a b) → StronglySorted R1 l → StronglySorted R2 l.
Proof.
  intros Himpl. induction 1 as [|a l Hs IH Hall]; constructor; [done|].
  eapply Forall_impl; [exact Hall|]. intros b. apply Himpl.
Qed.

Lemma ranks_strictly_before_le a b :
  ranks_strictly_before a b → (b.2 ≤ a.2)%Qc.
Proof.
  intros [Hlt | [Heq _]]; [by apply Qclt_le_weak|].
  rewrite Heq. apply Qcle_refl.
Qed.

(** C4, amended. A query of the vector index returns at most [k] pairs of
    chunk id and score, in descending order of score with equal scores in
    ascending order of chunk id (so strictly descending in that combined
    order, not in the score alone); for [k = 1] the chunk returned has the
    highest score of the index; the chunks retrieved keep the order of the
    query, and the panel displays the context of a response in the order
    delivered. *)
Theorem C4_query_ranking (similarity : Vector → Vector → Qc)
    (index : gmap string IndexEntry) (vector : Vector) (k : nat) :
  (length (query similarity index vector k) ≤ k)%nat
  ∧ StronglySorted ranks_strictly_before (query similarity index vector k)
  ∧ StronglySorted (λ a b, (b.2 ≤ a.2)%Qc) (query similarity index vector k)
  ∧ (index ≠ ∅ →
     ∃ chunkId entry,
       index !! chunkId = Some entry
       ∧ query similarity index vector 1
         = [(chunkId, similarity vector (e_vector entry))]
       ∧ ∀ chunkId' entry', index !! chunkId' = Some entry' →
           (similarity vector (e_vector entry')
            ≤ similarity vector (e_vector entry))%Qc)
  ∧ (∀ embed default_k sys tenant queryText limit,
       (λ c, (chunk_id c, score c))
         <$> retrieve similarity embed default_k sys tenant queryText limit
       `sublist_of`
       query similarity (tenantIndex sys tenant) (embed queryText)
         (effective_k default_k limit))
  ∧ (∀ (builtins : JsBuiltins) chatbotName st st1 localId now payload
       response,
       handleSubmit st localId now = (st1, Some payload) →
       displayed chatbotName (ChatPanel.step st1 (Resolved response)).1
       = (λ c, (chunk_id c, score c)) <$> context response).
Proof.
  assert (Hstrict : StronglySorted ranks_strictly_before
                      (query similarity index vector k))
    by (apply sorted_strictly; [apply query_sorted | apply query_NoDup]).
  split; [apply query_length|]. split; [exact Hstrict|].
  split; [|split; [apply query_one|split]].
  - eapply StronglySorted_weaken; [|exact Hstrict].
    intros a b. apply ranks_strictly_before_le.
  - intros. apply retrieve_order.
  - intros builtins chatbotName st st1 localId now payload response Hsent.
    destruct (successful_request chatbotName st st1 localId now payload
                response Hsent) as (_ & _ & Hsection & _).
    unfold displayed. rewrite Hsection.
    case_bool_decide as Hnil; simpl.
    + by rewrite Hnil.
    + rewrite <- list_fmap_compose. by apply list_fmap_ext.
Qed.

Lemma twins_not_empty : twins ≠ ∅.
Proof.
  intros Heq. apply (f_equal (λ m, m !! "chunk-a")) in Heq.
  vm_compute in Heq. discriminate Heq.
Defined.

Lemma C4_query_ranking_witness :
  (∃ chunkId entry,
     twins !! chunkId = Some entry
     ∧ query dot twins (unit_embed "q") 1
       = [(chunkId, dot (unit_embed "q") (e_vector entry))]
     ∧ ∀ chunkId' entry', twins !! chunkId' = Some entry' →
         (dot (unit_embed "q") (e_vector entry')
          ≤ dot (unit_embed "q") (e_vector entry))%Qc)
  ∧ displayed "Helper"
      (ChatPanel.step (handleSubmit talking "local-1" "2025-01-01T00:00:02Z").1
            (Resolved (answer [nameless]))).1
    = (λ c, (chunk_id c, score c)) <$> context (answer [nameless]).
Proof.
  split.
  - apply (proj1 (proj2 (proj2 (proj2
             (C4_query_ranking dot twins (unit_embed "q") 1))))).
    exact twins_not_empty.
  - apply (proj2 (proj2 (proj2 (proj2 (proj2
             (C4_query_ranking dot twins (unit_embed "q") 1)))))
             sample_builtins "Helper" talking _ "local-1"
             "2025-01-01T00:00:02Z"
             {| message := "How do I reset my password?";
                conversation_id := Some "conv-1"; top_k := None |}).
    reflexivity.
Defined.

(** The claim of C4 fails on equal scores: two chunks with the same vector
    both come back, with the same score. *)
Lemma C4_counterexample :
  ¬ strictly_descending (query dot twins (unit_embed "q") 3).
Proof.
  unfold strictly_descending. apply (bool_decide_eq_false_1 _).
  vm_compute. reflexivity.
Qed.




(** The scenario of the specification: the query [[1,0]] with [k = 1] gets
    the first chunk back, with score 1 and the name of its document. *)
Example retrieve_scenario :
  (λ c, (chunk_id c, document_name c, this (score c), chunk_content c))
    <$> retrieve dot unit_embed 4 (after ingested) "bot-1" "password?"
          (Some 1%nat)
  = [("chunk-1", Some "faq.txt", 1%Q, "Reset your password.")].
Proof. vm_compute. reflexivity. Qed.

(** C6. After every history of the job controller, every hit of the query
    comes back as a context chunk, none being dropped, and every context
    chunk retrieved carries the text of the persisted chunk of its id, the
    id and the name of the document that owns that chunk, a READY document
    of the tenant, and the similarity score of the chunk's vector against
    the query; so the document name is present on every chunk retrieved.
    The panel shows each of them under that name, with its score and its
    text. *)
Theorem C6_context_chunk (similarity : Vector → Vector → Qc)
    (embed : string → Vector) (default_k : nat) (history : list JobEvent)
    (tenant queryText : string) (k : option nat) :
  let sys := after history in
  let found := retrieve similarity embed default_k sys tenant queryText k in
  (λ c, (chunk_id c, score c)) <$> found
  = query similarity (tenantIndex sys tenant) (embed queryText)
      (effective_k default_k k)
  ∧ (∀ chunk, chunk ∈ found →
       ∃ record d entry,
         chunks sys !! chunk_id chunk = Some record
         ∧ chunk_content chunk = c_text record
         ∧ document_id chunk = c_document record
         ∧ documents sys !! document_id chunk = Some d
         ∧ tenant_id d = tenant ∧ d_status d = ready
         ∧ document_name chunk = Some (d_file_name d)
         ∧ tenantIndex sys tenant !! chunk_id chunk = Some entry
         ∧ score chunk = similarity (embed queryText) (e_vector entry)
         ∧ renderChunk chunk
           = {| cv_key := chunk_id chunk; cv_title := d_file_name d;
                cv_score := score chunk; cv_text := c_text record |})
  ∧ (∀ (builtins : JsBuiltins) chatbotName st st1 localId now payload
       response,
       handleSubmit st localId now = (st1, Some payload) →
       context response = found → found ≠ [] →
       context_section
         (render chatbotName (ChatPanel.step st1 (Resolved response)).1)
       = Some (renderChunk <$> found)).
Proof.
  intros sys found. split; [|split].
  - apply retrieve_all, after_index_of_chunks.
  - intros chunk Hin.
    destruct (retrieve_resolved similarity embed default_k sys tenant
                queryText k chunk)
      as (record & d & entry & Hrecord & Htext & Hdoc & Hd & Htenant
          & Hready & Hname & Hentry & Hscore);
      [apply after_invariants | apply after_index_of_chunks | exact Hin |].
    exists record, d, entry. rewrite Hdoc.
    repeat split; try assumption.
    unfold renderChunk. by rewrite Hname, Htext.
  - intros builtins chatbotName st st1 localId now payload response
      Hsent Hcontext Hsome.
    destruct (successful_request chatbotName st st1 localId now payload
                response Hsent) as (_ & _ & Hsection & _).
    rewrite Hsection, Hcontext. by rewrite bool_decide_false.
Qed.

Lemma ingested_retrieved :
  retrieve dot unit_embed 4 (after ingested) "bot-1" "password?"
    (Some 1%nat)
  = [retrieved].
Proof.
  vm_compute. reflexivity.
Qed.

Lemma C6_context_chunk_witness :
  ∃ record d entry,
    chunks (after ingested) !! chunk_id retrieved = Some record
    ∧ chunk_content retrieved = c_text record
    ∧ document_id retrieved = c_document record
    ∧ documents (after ingested) !! document_id retrieved = Some d
    ∧ tenant_id d = "bot-1" ∧ d_status d = ready
    ∧ document_name retrieved = Some (d_file_name d)
    ∧ tenantIndex (after ingested) "bot-1" !! chunk_id retrieved
      = Some entry
    ∧ score retrieved = dot (unit_embed "password?") (e_vector entry)
    ∧ renderChunk retrieved
      = {| cv_key := chunk_id retrieved; cv_title := d_file_name d;
           cv_score := score retrieved; cv_text := c_text record |}.
Proof.
  apply (proj1 (proj2 (C6_context_chunk dot unit_embed 4%nat ingested
                         "bot-1" "password?" (Some 1%nat)))).
  rewrite ingested_retrieved. apply list_elem_of_here.
Defined.

(** The panel also takes a chunk without a document name, which the type of
    the response allows, and displays it under the id of its document. *)
Example nameless_chunk_displayed :
  let st2 :=
    (ChatPanel.step (handleSubmit talking "local-1" "2025-01-01T00:00:02Z").1
          (Resolved (answer [nameless]))).1 in
  contextChunks st2 = [nameless]
  ∧ cv_title <$> default [] (context_section (render "Helper" st2))
    = ["doc-2"].
Proof. split; reflexivity. Qed.

End RetrievalFacts.

(** ** More on the stored token and the requests *)

Module TokenFacts.
Import Api ApiFacts Interceptor Sample Inputs.

Lemma getErrorMessage_empty (error : JsError) :
  getErrorMessage error = "" ↔ error = PlainError "".
Proof.
  split.
  - destruct error as [detail message | message |]; simpl.
    + unfold or_else. repeat case_bool_decide; congruence.
    + by intros ->.
    + discriminate.
  - by intros ->.
Qed.

(** [getErrorMessage] gives, for an axios error, the detail of the response
    when there is one and it is not empty, else the message of the error
    when it is not empty, else a fixed text; for another [Error] its
    message; for anything else another fixed text.  So the text is empty
    only for an [Error] whose message is empty. *)
Theorem getErrorMessage_cases (detail : option string) (message : string) :
  (∀ text, detail = Some text → text ≠ "" →
     getErrorMessage (AxiosError detail message) = text)
  ∧ (detail = None ∨ detail = Some "" → message ≠ "" →
     getErrorMessage (AxiosError detail message) = message)
  ∧ (detail = None ∨ detail = Some "" → message = "" →
     getErrorMessage (AxiosError detail message)
     = "Request failed — please try again.")
  ∧ getErrorMessage (PlainError message) = message
  ∧ getErrorMessage OtherValue = "Something went wrong."
  ∧ (∀ error, getErrorMessage error = "" ↔ error = PlainError "").
Proof.
  split; [|split; [|split]].
  - intros text -> Htext. simpl. unfold or_else.
    by rewrite bool_decide_false.
  - intros Hdetail Hmessage.
    assert (Hnone : default "" detail = "") by (by destruct Hdetail as [-> | ->]).
    simpl. unfold or_else. rewrite Hnone, bool_decide_true by done.
    by rewrite bool_decide_false.
  - intros Hdetail ->.
    assert (Hnone : default "" detail = "") by (by destruct Hdetail as [-> | ->]).
    simpl. unfold or_else. by rewrite Hnone.
  - repeat split; apply getErrorMessage_empty.
Qed.

Lemma getErrorMessage_cases_witness :
  getErrorMessage
    (AxiosError (Some "Chatbot not found")
       "Request failed with status code 404")
  = "Chatbot not found"
  ∧ getErrorMessage (AxiosError None "Network Error") = "Network Error"
  ∧ getErrorMessage (AxiosError (Some "") "")
    = "Request failed — please try again.".
Proof.
  split; [|split].
  - apply (proj1 (getErrorMessage_cases (Some "Chatbot not found")
                    "Request failed with status code 404")
             "Chatbot not found"); [reflexivity | discriminate].
  - apply (proj1 (proj2 (getErrorMessage_cases None "Network Error")));
      [by left | discriminate].
  - apply (proj1 (proj2 (proj2 (getErrorMessage_cases (Some "") ""))));
      [by right | reflexivity].
Defined.

(** [setStoredToken] touches no other key of the storage; when its call
    raises it changes nothing and logs one warning, and when the call goes
    through it logs none. *)
Theorem setStoredToken_effect (token : option string) (b : Browser) :
  delete TOKEN_STORAGE_KEY (items (setStoredToken token b).2)
  = delete TOKEN_STORAGE_KEY (items b)
  ∧ (raises b (storageCall token) = true →
     items (setStoredToken token b).2 = items b
     ∧ warnings (setStoredToken token b).2
       = warnings b ++ ["Unable to persist auth token"])
  ∧ (raises b (storageCall token) = false →
     warnings (setStoredToken token b).2 = warnings b).
Proof.
  unfold storageCall, setStoredToken, try_catch, localStorage_removeItem,
    localStorage_setItem, console_warn.
  destruct (truthy token); simpl;
    match goal with |- context [raises b ?c] => destruct (raises b c) end;
    simpl; repeat split; try done.
  - by rewrite delete_insert_eq.
  - by rewrite delete_delete_eq.
Qed.

Lemma setStoredToken_effect_witness :
  (items (setStoredToken (Some "jwt-2") readOnly).2 = items readOnly
   ∧ warnings (setStoredToken (Some "jwt-2") readOnly).2
     = warnings readOnly ++ ["Unable to persist auth token"])
  ∧ warnings (setStoredToken (Some "jwt-2") signedIn).2 = warnings signedIn.
Proof.
  split.
  - apply (proj1 (proj2 (setStoredToken_effect (Some "jwt-2") readOnly))).
    reflexivity.
  - apply (proj2 (proj2 (setStoredToken_effect (Some "jwt-2") signedIn))).
    reflexivity.
Defined.

(** With a storage that works, the token read is the one written last,
    whatever was written before; writing [null] or [''] last leaves none. *)
Theorem last_write_wins (first second : option string) (b : Browser) :
  (∀ call, raises b call = false) →
  (getStoredToken
     (setStoredToken second (setStoredToken first b).2).2).1
  = Normal (if truthy second then second else None).
Proof.
  intros Hworks.
  assert (Hworks' : ∀ call, raises (setStoredToken first b).2 call = false)
    by (intros call; rewrite setStoredToken_raises; apply Hworks).
  rewrite getStoredToken_reads
    by (rewrite setStoredToken_raises; apply Hworks').
  simpl. destruct (truthy second) eqn:Htruthy.
  - destruct second as [t|]; [|discriminate]. simpl in Htruthy.
    apply negb_true_iff, bool_decide_eq_false in Htruthy.
    rewrite setStoredToken_stores by (done || apply Hworks').
    by rewrite lookup_insert_eq.
  - rewrite setStoredToken_removes by (done || apply Hworks').
    by rewrite lookup_delete_eq.
Qed.

Lemma last_write_wins_witness :
  (getStoredToken
     (setStoredToken (Some "jwt-3")
        (setStoredToken (Some "jwt-2") signedIn).2).2).1
  = Normal (Some "jwt-3").
Proof.
  apply (last_write_wins (Some "jwt-2") (Some "jwt-3") signedIn).
  reflexivity.
Defined.

Section requests.
Variable headers_set : string → string → gmap string string
                       → gmap string string.

Lemma authorize_unfold config b :
  authorize headers_set config b
  = match (getStoredToken b).1 with
    | Normal token =>
        if negb (truthy token) then (Normal config, b)
        else
          (Normal
             (with_headers
                match headers config with
                | Some (AxiosHeaders entries) =>
                    AxiosHeaders
                      (headers_set "Authorization"
                         (bearer (default "" token)) entries)
                | Some (PlainObject entries) =>
                    PlainObject
                      (<["Authorization" := bearer (default "" token)]>
                         entries)
                | None =>
                    AxiosHeaders
                      {["Authorization" := bearer (default "" token)]}
                end config), b)
    | Throw e => (Throw e, b)
    end.
Proof.
  unfold authorize, bind, getStoredToken, try_catch, localStorage_getItem.
  destruct (raises b (GetItem TOKEN_STORAGE_KEY)); simpl.
  - reflexivity.
  - destruct (truthy (items b !! TOKEN_STORAGE_KEY)); simpl; [|done].
    by destruct (headers config) as [[entries|entries]|].
Qed.

Lemma authorize_normal config b :
  ∃ sent, authorize headers_set config b = (Normal sent, b).
Proof.
  rewrite authorize_unfold.
  unfold getStoredToken, try_catch, localStorage_getItem.
  destruct (raises b (GetItem TOKEN_STORAGE_KEY)); simpl; [eauto|].
  destruct (truthy (items b !! TOKEN_STORAGE_KEY)); simpl; eauto.
Qed.

Lemma authorize_without_token config b :
  truthy (items b !! TOKEN_STORAGE_KEY) = false
  ∨ raises b (GetItem TOKEN_STORAGE_KEY) = true →
  authorize headers_set config b = (Normal config, b).
Proof.
  rewrite authorize_unfold.
  unfold getStoredToken, try_catch, localStorage_getItem.
  destruct (raises b (GetItem TOKEN_STORAGE_KEY)) eqn:Hraises; simpl;
    [done|].
  intros [Hfalsy | [=]]. by rewrite Hfalsy.
Qed.

Lemma authorize_with_token config b t :
  raises b (GetItem TOKEN_STORAGE_KEY) = false →
  items b !! TOKEN_STORAGE_KEY = Some t → t ≠ "" →
  plain config →
  ∃ sent,
    authorize headers_set config b = (Normal sent, b)
    ∧ header "Authorization" sent = Some (bearer t)
    ∧ url sent = url config ∧ method sent = method config
    ∧ ∀ other, other ≠ "Authorization" →
        header other sent = header other config.
Proof.
  intros Hraises Hstored Hne Hplain. rewrite authorize_unfold.
  unfold getStoredToken, try_catch, localStorage_getItem.
  rewrite Hraises. simpl. rewrite Hstored. simpl.
  rewrite bool_decide_false by done. simpl.
  eexists. split; [reflexivity|]. unfold header, plain in *. simpl.
  destruct (headers config) as [[entries|entries]|]; [done| |]; simpl.
  - rewrite lookup_insert_eq. repeat split; [done..|].
    intros other Hother. by rewrite lookup_insert_ne.
  - rewrite lookup_singleton_eq. repeat split; [done..|].
    intros other Hother. by rewrite lookup_singleton_ne.
Qed.

(** The interceptor never fails and never writes the browser; without a
    usable token (none stored, an empty one, or a storage that throws) the
    request goes out as it came; with a token [t], a request with plain or
    no headers gets [Authorization: Bearer t], and keeps its url, its method
    and its other headers. *)
Theorem authorize_request (config : RequestConfig) (b : Browser) :
  (∃ sent, authorize headers_set config b = (Normal sent, b))
  ∧ (truthy (items b !! TOKEN_STORAGE_KEY) = false
     ∨ raises b (GetItem TOKEN_STORAGE_KEY) = true →
     authorize headers_set config b = (Normal config, b))
  ∧ (∀ t,
       raises b (GetItem TOKEN_STORAGE_KEY) = false →
       items b !! TOKEN_STORAGE_KEY = Some t → t ≠ "" →
       plain config →
       ∃ sent,
         authorize headers_set config b = (Normal sent, b)
         ∧ header "Authorization" sent = Some (bearer t)
         ∧ url sent = url config ∧ method sent = method config
         ∧ ∀ other, other ≠ "Authorization" →
             header other sent = header other config).
Proof.
  split; [apply authorize_normal|].
  split; [apply authorize_without_token|].
  intros t. apply authorize_with_token.
Qed.

End requests.

Lemma authorize_request_witness :
  authorize (λ name value entries, <[name := value]> entries) listing
    disabled
  = (Normal listing, disabled)
  ∧ ∃ sent,
      authorize (λ name value entries, <[name := value]> entries) listing
        signedIn
      = (Normal sent, signedIn)
      ∧ header "Authorization" sent = Some (bearer "jwt-1")
      ∧ url sent = url listing ∧ method sent = method listing
      ∧ ∀ other, other ≠ "Authorization" →
          header other sent = header other listing.
Proof.
  split.
  - apply (proj1 (proj2 (authorize_request
             (λ name value entries, <[name := value]> entries)
             listing disabled))).
    right. reflexivity.
  - apply (proj2 (proj2 (authorize_request
             (λ name value entries, <[name := value]> entries)
             listing signedIn)) "jwt-1").
    + reflexivity.
    + reflexivity.
    + discriminate.
    + exact I.
Defined.

End TokenFacts.

(** ** The token form of the layout *)

Module LayoutFacts.
Import Api ApiFacts TokenFacts Interceptor MainLayout Sample Inputs.

Section layout.
Context `{JsBuiltins}.

Lemma setToken_works (value : string) (b : Browser) :
  (∀ call, raises b call = false) →
  ∃ b', AuthContext.setToken value b = (Normal (saved value), b')
        ∧ (∀ call, raises b' call = false)
        ∧ items b' !! TOKEN_STORAGE_KEY = saved value.
Proof.
  intros Hworks. unfold AuthContext.setToken, saved. simpl.
  case_bool_decide as Hempty; simpl;
    rewrite (bind_normal _ _ b ()) by apply setStoredToken_normal;
    unfold ret; eexists; (split; [reflexivity|]);
    (split; [intros call; rewrite setStoredToken_raises; apply Hworks|]).
  - rewrite setStoredToken_removes by (reflexivity || apply Hworks).
    by rewrite lookup_delete_eq.
  - rewrite setStoredToken_stores by (assumption || apply Hworks).
    by rewrite lookup_insert_eq.
Qed.

(** With a storage that works, saving the draft makes the trimmed draft the
    token, or clears the token when the draft is blank; the status line
    follows, and the next load of the page starts from that token. *)
Theorem save_persists (st : LayoutState) (b : Browser) :
  (∀ call, raises b call = false) →
  ∃ st' b',
    handleSubmit st b = (Normal st', b')
    ∧ token st' = saved (draftToken st)
    ∧ status st' = (if bool_decide (trim (draftToken st) = "")
                    then "No token configured" else "Token stored")
    ∧ mount b'
      = (Normal {| token := token st';
                   draftToken := default "" (token st') |}, b').
Proof.
  intros Hworks.
  destruct (setToken_works (draftToken st) b Hworks)
    as (b' & Hset & Hworks' & Hstored).
  unfold handleSubmit, bind. rewrite Hset. unfold ret.
  eexists _, b'. split; [reflexivity|]. simpl. split; [done|]. split.
  - unfold status, saved. simpl.
    case_bool_decide as Hempty; simpl; [done|].
    by rewrite bool_decide_false.
  - unfold mount, bind.
    rewrite getStoredToken_reads by apply Hworks'.
    rewrite Hstored. reflexivity.
Qed.

Variable headers_set : string → string → gmap string string
                       → gmap string string.

(** With a storage that works, the requests that follow a save carry the
    saved token, and the requests that follow a clear carry none. *)
Theorem save_then_request (st : LayoutState) (b : Browser)
    (config : RequestConfig) :
  (∀ call, raises b call = false) →
  plain config →
  (trim (draftToken st) ≠ "" →
   ∃ sent,
     authorize headers_set config (handleSubmit st b).2
     = (Normal sent, (handleSubmit st b).2)
     ∧ header "Authorization" sent
       = Some (bearer (trim (draftToken st))))
  ∧ authorize headers_set config (handleClear st b).2
    = (Normal config, (handleClear st b).2).
Proof.
  intros Hworks Hplain. split.
  - intros Hdraft.
    destruct (setToken_works (draftToken st) b Hworks)
      as (b' & Hset & Hworks' & Hstored).
    unfold handleSubmit, bind. rewrite Hset. unfold ret. simpl.
    unfold saved in Hstored. rewrite bool_decide_false in Hstored by done.
    destruct (authorize_with_token headers_set config b'
                (trim (draftToken st)) (Hworks' _) Hstored Hdraft Hplain)
      as (sent & Hsent & Hheader & _).
    eauto.
  - unfold handleClear, AuthContext.clearToken.
    rewrite (bind_normal _ _ b None).
    2: { by rewrite (bind_normal _ _ b ()) by apply setStoredToken_normal. }
    rewrite (bind_normal _ _ b ()) by apply setStoredToken_normal.
    unfold ret. simpl.
    apply authorize_without_token.
    left. rewrite setStoredToken_removes by (reflexivity || apply Hworks).
    by rewrite lookup_delete_eq.
Qed.

End layout.

Lemma save_persists_witness :
  ∃ st' b',
    handleSubmit typing signedIn = (Normal st', b')
    ∧ token st' = Some "jwt-2"
    ∧ status st' = "Token stored"
    ∧ mount b'
      = (Normal {| token := token st';
                   draftToken := default "" (token st') |}, b').
Proof.
  destruct (save_persists typing signedIn)
    as (st' & b' & Hsave & Htoken & Hstatus & Hmount); [reflexivity|].
  exists st', b'. split; [exact Hsave|]. split; [|split].
  - rewrite Htoken. reflexivity.
  - rewrite Hstatus. reflexivity.
  - exact Hmount.
Defined.

Lemma save_then_request_witness :
  (∃ sent,
     authorize (λ name value entries, <[name := value]> entries) listing
       (handleSubmit typing signedIn).2
     = (Normal sent, (handleSubmit typing signedIn).2)
     ∧ header "Authorization" sent = Some "Bearer jwt-2")
  ∧ authorize (λ name value entries, <[name := value]> entries) listing
      (handleClear typing signedIn).2
    = (Normal listing, (handleClear typing signedIn).2).
Proof.
  destruct (save_then_request
              (λ name value entries, <[name := value]> entries)
              typing signedIn listing) as [Hsave Hclear].
  - reflexivity.
  - exact I.
  - split; [|exact Hclear]. apply Hsave. discriminate.
Defined.

End LayoutFacts.

(** ** The chat panel over its histories *)

Module ChatHistoryFacts.
Import Api ChatPanel ChatPanelFacts ChatHistory Sample.

Section histories.
Context `{JsBuiltins}.

(** The Send button is disabled exactly when a submission would send
    nothing. *)
Theorem send_button (chatbotName : string) (st : PanelState)
    (localId : string) (now : ISODateTimeString) :
  submit_disabled (render chatbotName st) = true
  ↔ (handleSubmit st localId now).2 = None.
Proof.
  unfold render. simpl.
  destruct (handleSubmit_cases st) as [[Ht Hp] | Hc].
  - rewrite handleSubmit_sends by assumption. simpl.
    rewrite Hp, bool_decide_false by done. simpl. split; discriminate.
  - rewrite handleSubmit_ignores by assumption. simpl.
    split; [done|]. intros _. destruct Hc as [Ht | Hp].
    + rewrite bool_decide_true by done. apply orb_true_r.
    + by rewrite Hp.
Qed.

Lemma isPending_None st : isPending st = false ↔ inFlight st = None.
Proof.
  unfold isPending. destruct (inFlight st); simpl; split;
    (done || discriminate).
Qed.


Lemma step_coherent st ev : coherent st → coherent (step st ev).1.
Proof.
  intros Hst. pose proof Hst as (Hmarker & Herror & Hsending).
  destruct ev as [localId now | response | error | | value]; simpl.
  - destruct (handleSubmit_cases st) as [[Ht Hp] | Hc].
    2: { rewrite handleSubmit_ignores by assumption. exact Hst. }
    rewrite handleSubmit_sends by assumption.
    apply isPending_None in Hp.
    split; [|split]; simpl; [done | done |].
    intros m [Hin | ->%list_elem_of_singleton]%elem_of_app Hflag; [|done].
    specialize (Hsending m Hin Hflag). congruence.
  - destruct (inFlight st) as [localId|] eqn:Hflight; [|exact Hst].
    split; [|split]; simpl; [done | by intros [? ?] |].
    intros m [Hin | ->%list_elem_of_singleton]%elem_of_app Hflag;
      [|discriminate].
    apply list_elem_of_fmap in Hin as (m0 & -> & Hin0).
    case_bool_decide as Hid; [discriminate|].
    specialize (Hsending m0 Hin0 Hflag). congruence.
  - destruct (inFlight st) as [localId|] eqn:Hflight; [|exact Hst].
    split; [|split]; simpl; [done | by intros [? ?] |].
    intros m [Hid Hin]%list_elem_of_filter Hflag.
    specialize (Hsending m Hin Hflag). congruence.
  - split; [|split]; simpl; [done | done |].
    intros m Hin. by apply elem_of_nil in Hin.
  - exact Hst.
Qed.

Lemma run_coherent evs : ∀ st, coherent st → coherent (run st evs).1.
Proof.
  induction evs as [|ev evs IH]; intros st Hst; [exact Hst|].
  rewrite run_cons. by apply IH, step_coherent.
Qed.

(** After every history of a panel, the pending marker names the request
    in flight, no error is set or shown while a request is in flight, and
    once none is in flight no message is shown as being sent. *)
Theorem panel_coherent (chatbotName : string) (evs : list Event) :
  let st := (run initialState evs).1 in
  coherent st
  ∧ (isPending st = true → error_banner (render chatbotName st) = None)
  ∧ (isPending st = false →
     Forall (λ view, mv_sending view = false)
            (message_list (render chatbotName st))).
Proof.
  intros st.
  assert (Hst : coherent st).
  { apply run_coherent. split; [|split]; simpl; [done | done |].
    intros m Hin. by apply elem_of_nil in Hin. }
  split; [exact Hst|]. destruct Hst as (Hmarker & Herror & Hsending).
  split.
  - intros Hp. unfold render. simpl. rewrite Herror; [done|].
    unfold isPending in Hp. by apply bool_decide_eq_true in Hp.
  - intros Hp. apply isPending_None in Hp. unfold render. simpl.
    apply Forall_fmap, Forall_forall. intros m Hin. simpl.
    apply bool_decide_eq_false. intros Hflag.
    specialize (Hsending m Hin Hflag). congruence.
Qed.

Lemma outstanding evs : ∀ st,
  (length (run st evs).2
   ≤ settles evs + (if isPending st then 0 else 1))%nat.
Proof.
  induction evs as [|ev evs IH]; intros st; [simpl; lia|].
  rewrite run_requests, length_app.
  specialize (IH (step st ev).1).
  destruct ev as [localId now | response | error | | value]; simpl in *.
  - destruct (handleSubmit_cases st) as [[Ht Hp] | Hc].
    + rewrite handleSubmit_sends in * by assumption. simpl in *.
      rewrite Hp. unfold isPending in IH. simpl in IH. lia.
    + rewrite handleSubmit_ignores in * by assumption. simpl in *. lia.
  - destruct (inFlight st) eqn:Hflight; simpl in *;
      destruct (isPending st); lia.
  - destruct (inFlight st) eqn:Hflight; simpl in *;
      destruct (isPending st); lia.
  - unfold isPending in *. simpl in *. lia.
  - unfold isPending in *. simpl in *. lia.
Qed.

(** A panel never has two requests outstanding: the requests of a history
    are at most one more than the responses and failures it contains. *)
Theorem one_request_at_a_time (evs : list Event) :
  (length (run initialState evs).2 ≤ settles evs + 1)%nat.
Proof. apply (outstanding evs initialState). Qed.


(** A response that arrives after a reset of the conversation is still
    handled: the log holds one message alone, with the id, the role, the
    text and the date of the reply and not pending, and the conversation id
    and the context are the ones of the response. *)
Theorem response_after_reset (st st1 : PanelState) (localId : string)
    (now : ISODateTimeString) (payload : ChatRequestPayload)
    (response : ChatResponsePayload) :
  handleSubmit st localId now = (st1, Some payload) →
  let st3 := (step (handleReset st1) (Resolved response)).1 in
  messages st3
  = [ {| id := msg_id (reply response);
         role := msg_role (reply response);
         content := msg_content (reply response);
         created_at := msg_created_at (reply response);
         pending_flag := Some false |} ]
  ∧ conversationId st3 = Some (resp_conversation_id response)
  ∧ contextChunks st3 = context response
  ∧ isPending st3 = false.
Proof.
  intros Hsubmit.
  destruct (handleSubmit_cases st) as [[Ht Hp] | Hc].
  2: { rewrite handleSubmit_ignores in Hsubmit by assumption. discriminate. }
  rewrite handleSubmit_sends in Hsubmit by assumption.
  injection Hsubmit as <- <-. simpl. done.
Qed.

End histories.

Lemma panel_coherent_witness :
  error_banner
    (render "Helper"
       (run initialState
          [ Typed "first"; Submit "local-1" "2025-01-01T00:00:02Z" ]).1)
  = None
  ∧ Forall (λ view, mv_sending view = false)
      (message_list
         (render "Helper"
            (run initialState
               [ Typed "first"; Submit "local-1" "2025-01-01T00:00:02Z";
                 Resolved (answer []) ]).1)).
Proof.
  split.
  - apply (proj1 (proj2 (panel_coherent "Helper"
             [ Typed "first"; Submit "local-1" "2025-01-01T00:00:02Z" ]))).
    reflexivity.
  - apply (proj2 (proj2 (panel_coherent "Helper"
             [ Typed "first"; Submit "local-1" "2025-01-01T00:00:02Z";
               Resolved (answer []) ]))).
    reflexivity.
Defined.


Lemma response_after_reset_witness :
  let st3 :=
    (step (handleReset
             (handleSubmit talking "local-1" "2025-01-01T00:00:02Z").1)
          (Resolved (answer [nameless]))).1 in
  messages st3
  = [ {| id := "msg-2"; role := assistant;
         content := "Use the profile page.";
         created_at := "2025-01-01T00:00:03Z";
         pending_flag := Some false |} ]
  ∧ conversationId st3 = Some "conv-1"
  ∧ contextChunks st3 = [nameless]
  ∧ isPending st3 = false.
Proof.
  apply (response_after_reset talking _ "local-1" "2025-01-01T00:00:02Z"
           {| message := "How do I reset my password?";
              conversation_id := Some "conv-1"; top_k := None |}
           (answer [nameless])).
  reflexivity.
Defined.

End ChatHistoryFacts.

(** ** The creation form, field by field *)

Module ChatbotsFormFacts.
Import Api ChatbotsPage ChatbotsPageFacts ChatbotsForm Sample.

Lemma string_min_1 text value : string_min 1 text value = [] ↔ value ≠ "".
Proof.
  unfold string_min. destruct value as [|c rest].
  - split; [discriminate | done].
  - case_bool_decide as Hlen; [simpl in Hlen; lia|].
    split; [discriminate | done].
Qed.

Lemma optional_string_max_5000 text value :
  optional_string_max 5000 text
    (if truthy (Some value) then Some value else None) = []
  ↔ (String.length value ≤ 5000)%nat.
Proof.
  unfold optional_string_max, truthy.
  destruct value as [|c rest].
  - simpl. split; [lia | done].
  - rewrite bool_decide_false by discriminate. cbn [negb].
    case_bool_decide; split; (done || lia).
Qed.

Lemma temperature_checks (n : JsNumber) :
  number_checks false 0 1 n = []
  ↔ ∃ q : Qc, n = Finite q ∧ (Qc_of_Z 0 ≤ q)%Qc ∧ (q ≤ Qc_of_Z 1)%Qc.
Proof.
  destruct n as [| | | q]; simpl.
  - split; [discriminate | by intros (q & [=] & _)].
  - split; [discriminate | by intros (q & [=] & _)].
  - split; [discriminate | by intros (q & [=] & _)].
  - unfold of_Z. split.
    + intros Hnil. exists q. split; [done|].
      repeat case_bool_decide; try discriminate.
      split; by apply Qcnot_lt_le.
    + intros (q' & [= <-] & Hlo & Hhi).
      rewrite !bool_decide_false by (by apply Qcle_not_lt). reflexivity.
Qed.

Section form.
Context `{JsBuiltins}.

Lemma fieldIssues_valid (key : FieldKey) (form : FormState) :
  fieldIssues key form = [] ↔ valid key form.
Proof.
  destruct key; simpl.
  - apply string_min_1.
  - apply string_min_1.
  - apply string_min_1.
  - apply optional_string_max_5000.
  - apply temperature_checks.
  - apply top_k_checks.
Qed.

(** What [handleSubmit] does, by the issues of the fields. *)
Lemma handleSubmit_outcome (st : PageState) :
  let form := formState st in
  (∀ key, fieldIssues key form = [])
  ∧ handleSubmit st
    = ({| formState := form; formErrors := formErrors st;
          serverError := None |},
       Some {| input_name := name form;
               input_model_provider := model_provider form;
               input_model_name := model_name form;
               input_system_prompt := sentPrompt (system_prompt form);
               input_temperature := Some (Number_ (temperature form));
               input_top_k := Some (Number_ (form_top_k form)) |})
  ∨ (∃ key, fieldIssues key form ≠ [])
    ∧ handleSubmit st
      = ({| formState := form;
            formErrors :=
              {| err_name := head (fieldIssues KName form);
                 err_model_provider :=
                   head (fieldIssues KModelProvider form);
                 err_model_name := head (fieldIssues KModelName form);
                 err_system_prompt :=
                   head (fieldIssues KSystemPrompt form);
                 err_temperature := head (fieldIssues KTemperature form);
                 err_top_k := head (fieldIssues KTopK form) |};
            serverError := None |},
         None).
Proof.
  intros form. unfold handleSubmit, chatbotFormSchema. cbn [raw_name
    raw_model_provider raw_model_name raw_system_prompt raw_temperature
    raw_top_k issues_name issues_model_provider issues_model_name
    issues_system_prompt issues_temperature issues_top_k].
  fold form.
  change (string_min 1 "Name is required" (name form))
    with (fieldIssues KName form).
  change (string_min 1 "Provider is required" (model_provider form))
    with (fieldIssues KModelProvider form).
  change (string_min 1 "Model is required" (model_name form))
    with (fieldIssues KModelName form).
  change (optional_string_max 5000 "Prompt is too long"
            (if truthy (Some (system_prompt form))
             then Some (system_prompt form) else None))
    with (fieldIssues KSystemPrompt form).
  change (number_checks false 0 1 (Number_ (temperature form)))
    with (fieldIssues KTemperature form).
  change (number_checks true 1 20 (Number_ (form_top_k form)))
    with (fieldIssues KTopK form).
  destruct (fieldIssues KName form) eqn:H1;
    [|right; split; [by exists KName; rewrite H1 | reflexivity]].
  destruct (fieldIssues KModelProvider form) eqn:H2;
    [|right; split; [by exists KModelProvider; rewrite H2 | reflexivity]].
  destruct (fieldIssues KModelName form) eqn:H3;
    [|right; split; [by exists KModelName; rewrite H3 | reflexivity]].
  destruct (fieldIssues KSystemPrompt form) eqn:H4;
    [|right; split; [by exists KSystemPrompt; rewrite H4 | reflexivity]].
  destruct (fieldIssues KTemperature form) eqn:H5;
    [|right; split; [by exists KTemperature; rewrite H5 | reflexivity]].
  destruct (fieldIssues KTopK form) eqn:H6;
    [|right; split; [by exists KTopK; rewrite H6 | reflexivity]].
  left. split; [by intros []|]. cbn. unfold sentPrompt, truthy.
  destruct (system_prompt form); reflexivity.
Qed.

(** A submission of the creation form calls [createChatbot] exactly when
    every field is valid: name, provider and model not empty, a prompt of
    at most 5000 code units, a temperature that reads as a number between 0
    and 1, and a [top_k] that reads as an integer between 1 and 20. *)
Theorem submission_accepted (st : PageState) :
  is_Some (handleSubmit st).2 ↔ ∀ key, valid key (formState st).
Proof.
  destruct (handleSubmit_outcome st) as [[Hall ->] | [[key Hkey] ->]];
    simpl.
  - split; [|eauto]. intros _ key. apply fieldIssues_valid, Hall.
  - split; [by intros [? ?]|]. intros Hall. exfalso.
    apply Hkey, fieldIssues_valid, Hall.
Qed.

(** The payload of an accepted submission carries the name, the provider
    and the model as typed, the numbers read from the temperature and
    [top_k], and the prompt trimmed, or no prompt when it is blank; the form
    and its errors are left as they are. *)
Theorem submission_payload (st : PageState) (payload : CreateChatbotInput) :
  (handleSubmit st).2 = Some payload →
  payload
  = {| input_name := name (formState st);
       input_model_provider := model_provider (formState st);
       input_model_name := model_name (formState st);
       input_system_prompt := sentPrompt (system_prompt (formState st));
       input_temperature := Some (Number_ (temperature (formState st)));
       input_top_k := Some (Number_ (form_top_k (formState st))) |}
  ∧ formState (handleSubmit st).1 = formState st
  ∧ formErrors (handleSubmit st).1 = formErrors st
  ∧ (input_system_prompt payload = None
     ↔ system_prompt (formState st) = ""
       ∨ trim (system_prompt (formState st)) = "").
Proof.
  destruct (handleSubmit_outcome st) as [[Hall ->] | [_ ->]]; simpl;
    [|discriminate].
  intros [= <-]. repeat split; simpl.
  - unfold sentPrompt, truthy.
    destruct (decide (system_prompt (formState st) = "")) as [->|Hp];
      [by left|].
    rewrite (bool_decide_false _ Hp). simpl.
    case_bool_decide; [by right | discriminate].
  - unfold sentPrompt, truthy. intros [-> | ->]; [done|].
    by rewrite andb_false_r.
Qed.

(** A rejected submission sends nothing, leaves the form as typed, clears
    the server error and records an error for exactly the fields that are
    not valid, the first issue of each. *)
Theorem submission_rejected (st : PageState) :
  (handleSubmit st).2 = None →
  formState (handleSubmit st).1 = formState st
  ∧ serverError (handleSubmit st).1 = None
  ∧ ∀ key,
      fieldError key (formErrors (handleSubmit st).1)
      = head (fieldIssues key (formState st))
      ∧ (is_Some (fieldError key (formErrors (handleSubmit st).1))
         ↔ ¬ valid key (formState st)).
Proof.
  destruct (handleSubmit_outcome st) as [[Hall ->] | [_ ->]];
    [discriminate|].
  intros _. cbn [fst formState formErrors serverError].
  split; [done|]. split; [done|]. intros key.
  assert (Hhead : fieldError key
            {| err_name := head (fieldIssues KName (formState st));
               err_model_provider :=
                 head (fieldIssues KModelProvider (formState st));
               err_model_name :=
                 head (fieldIssues KModelName (formState st));
               err_system_prompt :=
                 head (fieldIssues KSystemPrompt (formState st));
               err_temperature :=
                 head (fieldIssues KTemperature (formState st));
               err_top_k := head (fieldIssues KTopK (formState st)) |}
          = head (fieldIssues key (formState st)))
    by (by destruct key).
  split; [exact Hhead|]. rewrite Hhead, <- fieldIssues_valid.
  destruct (fieldIssues key (formState st)); simpl.
  - split; [by intros [? ?] | done].
  - split; [done | eauto].
Qed.

(** Choosing a provider selects the first model offered for it, which for
    a provider other than [gemini] is none: the model is then empty, and a
    submission is rejected with the error of the model; the other fields and
    their errors are left as they are. *)
Theorem provider_change (provider : string) (st : PageState) :
  let st' := handleProviderChange provider st in
  model_provider (formState st') = provider
  ∧ (provider = "gemini" →
     model_name (formState st') = "models/gemini-2.5-flash")
  ∧ (provider ≠ "gemini" →
     model_name (formState st') = ""
     ∧ (handleSubmit st').2 = None
     ∧ err_model_name (formErrors (handleSubmit st').1)
       = Some (Custom "Model is required"))
  ∧ (∀ other, other ≠ KModelProvider → other ≠ KModelName →
       field other (formState st') = field other (formState st)
       ∧ fieldError other (formErrors st')
         = fieldError other (formErrors st)).
Proof.
  intros st'. split; [reflexivity|]. split; [by intros ->|]. split.
  - intros Hother.
    assert (Hmodel : model_name (formState st') = "").
    { subst st'. unfold handleProviderChange, MODEL_OPTIONS_BY_PROVIDER.
      rewrite lookup_singleton_ne by done. reflexivity. }
    split; [exact Hmodel|].
    destruct (handleSubmit_outcome st') as [[Hall _] | [_ ->]].
    + specialize (Hall KModelName). unfold fieldIssues in Hall.
      rewrite Hmodel in Hall. discriminate Hall.
    + cbn [fst snd formErrors err_model_name]. split; [done|].
      unfold fieldIssues. by rewrite Hmodel.
  - intros other Hp Hm. by destruct other.
Qed.

End form.

(** Editing a field sets that field and clears its error, and leaves the
    other fields, the other errors and the server error as they are. *)
Theorem input_change (key other : FieldKey) (value : string)
    (st : PageState) :
  field other (formState (handleInputChange key value st))
  = (if bool_decide (other = key) then value
     else field other (formState st))
  ∧ fieldError other (formErrors (handleInputChange key value st))
    = (if bool_decide (other = key) then None
       else fieldError other (formErrors st))
  ∧ serverError (handleInputChange key value st) = serverError st.
Proof. by destruct key, other. Qed.

Lemma string_length_app (a b : string) :
  String.length (a ++ b)%string = (String.length a + String.length b)%nat.
Proof. induction a as [|c a IH]; simpl; [done | by rewrite IH]. Qed.

Lemma substring_short (s : string) (n : nat) :
  (String.length s ≤ n)%nat → substring 0 n s = s.
Proof.
  revert n. induction s as [|c s IH]; intros [|n] Hlen; simpl in *;
    try reflexivity; try lia.
  f_equal. apply IH. lia.
Qed.

Lemma substring_long (s : string) (n : nat) :
  (n ≤ String.length s)%nat →
  ∃ rest, s = (substring 0 n s ++ rest)%string
          ∧ String.length (substring 0 n s) = n.
Proof.
  revert n. induction s as [|c s IH]; intros [|n] Hlen; simpl in *.
  - by exists "".
  - lia.
  - by exists (String c s).
  - destruct (IH n) as (rest & Hs & Hn); [lia|].
    exists rest. split; [|by rewrite Hn].
    change (String c s = String c (substring 0 n s ++ rest)%string).
    by f_equal.
Qed.

(** The description of a chatbot in the list is its whole prompt, without
    ellipsis, when the prompt has at most 160 code units, and the first 160
    code units followed by an ellipsis when it is longer; without a prompt
    it is a fixed text. *)
Theorem description_cut (prompt : string) :
  (prompt = "" → description prompt = ("No system prompt", false))
  ∧ (prompt ≠ "" → (String.length prompt ≤ 160)%nat →
     description prompt = (prompt, false))
  ∧ ((160 < String.length prompt)%nat →
     ∃ rest, prompt = ((description prompt).1 ++ rest)%string
             ∧ rest ≠ ""
             ∧ String.length (description prompt).1 = 160%nat
             ∧ (description prompt).2 = true).
Proof.
  unfold description, truthy. split; [|split].
  - by intros ->.
  - intros Hp Hlen. rewrite (bool_decide_false _ Hp). simpl.
    rewrite substring_short by done.
    by rewrite bool_decide_false by lia.
  - intros Hlen.
    assert (Hp : prompt ≠ "") by (intros ->; simpl in Hlen; lia).
    rewrite (bool_decide_false _ Hp). simpl.
    destruct (substring_long prompt 160) as (rest & Hs & Hn); [lia|].
    exists rest. repeat split; [done | | done | by rewrite bool_decide_true].
    intros ->. apply (f_equal String.length) in Hs.
    rewrite string_length_app, Hn in Hs. simpl in Hs. lia.
Qed.

Lemma submission_payload_witness :
  formState (handleSubmit filled).1 = formState filled
  ∧ formErrors (handleSubmit filled).1 = formErrors filled.
Proof.
  destruct (submission_payload filled
              {| input_name := "Support Bot";
                 input_model_provider := "gemini";
                 input_model_name := "models/gemini-2.5-flash";
                 input_system_prompt := Some "Answer with context";
                 input_temperature := Some (Number_ "0.3");
                 input_top_k := Some (Number_ "5") |})
    as (_ & Hform & Herrors & _); [reflexivity|].
  split; [exact Hform | exact Herrors].
Defined.

Lemma submission_rejected_witness :
  formState (handleSubmit overflowing).1 = formState overflowing
  ∧ fieldError KTopK (formErrors (handleSubmit overflowing).1)
    = Some TooBig
  ∧ fieldError KName (formErrors (handleSubmit overflowing).1) = None.
Proof.
  destruct (submission_rejected overflowing) as (Hform & _ & Hkeys);
    [reflexivity|].
  split; [exact Hform|]. split.
  - rewrite (proj1 (Hkeys KTopK)). reflexivity.
  - rewrite (proj1 (Hkeys KName)). reflexivity.
Defined.

Lemma provider_change_witness :
  model_name
    (formState (handleProviderChange "gemini" overflowing))
  = "models/gemini-2.5-flash"
  ∧ err_model_name
      (formErrors
         (handleSubmit (handleProviderChange "ollama" filled)).1)
    = Some (Custom "Model is required")
  ∧ field KName (formState (handleProviderChange "ollama" filled))
    = field KName (formState filled).
Proof.
  split; [|split].
  - apply (proj1 (proj2 (provider_change "gemini" overflowing))).
    reflexivity.
  - apply (proj1 (proj2 (proj2 (provider_change "ollama" filled)))).
    discriminate.
  - apply (proj2 (proj2 (proj2 (provider_change "ollama" filled))) KName);
      discriminate.
Defined.

Lemma description_cut_witness :
  description "" = ("No system prompt", false)
  ∧ description "Be helpful." = ("Be helpful.", false).
Proof.
  split.
  - apply (proj1 (description_cut "")). reflexivity.
  - apply (proj1 (proj2 (description_cut "Be helpful."))).
    + discriminate.
    + simpl. lia.
Defined.

End ChatbotsFormFacts.

(** ** The detail page: sizes and uploads *)

Module DetailPageFacts.
Import Api DetailPage Inputs.

Lemma scaled_down (x : Qc) :
  (Qc_of_Z 1024 ≤ x)%Qc → (Qc_of_Z 1 ≤ x / Qc_of_Z 1024)%Qc.
Proof.
  intros Hx.
  assert (Hone : (Qc_of_Z 1024 / Qc_of_Z 1024 = Qc_of_Z 1)%Qc)
    by (apply Qc_is_canon; reflexivity).
  rewrite <- Hone. unfold Qcdiv. apply Qcmult_le_compat_r; [exact Hx|].
  intros Hcmp. vm_compute in Hcmp. discriminate Hcmp.
Qed.

(** What the loop of [formatBytes] returns: the index has moved by some
    [n], the value is the one it started from divided by 1024 to the [n],
    below 1024 unless the units ran out, and at least 1 once divided. *)
Lemma scale_spec (left : nat) : ∀ (value : Qc) (index : nat),
  ∃ (v : Qc) (n : nat),
    scale left value index = (v, (index + n)%nat)
    ∧ (n ≤ left)%nat
    ∧ value = (v * Qc_of_Z 1024 ^ n)%Qc
    ∧ ((n < left)%nat → (v < Qc_of_Z 1024)%Qc)
    ∧ ((0 < n)%nat → (Qc_of_Z 1 ≤ v)%Qc).
Proof.
  induction left as [|left IH]; intros value index; simpl.
  - exists value, 0%nat. rewrite Nat.add_0_r.
    repeat split; [lia | simpl; ring | lia | lia].
  - case_bool_decide as Hbig.
    + destruct (IH (value / Qc_of_Z 1024)%Qc (S index))
        as (v & n & Hscale & Hn & Hvalue & Hlt & Hge).
      exists v, (S n). rewrite Hscale.
      split; [f_equal; lia|]. split; [lia|]. split; [|split].
      * simpl. transitivity (value / Qc_of_Z 1024 * Qc_of_Z 1024)%Qc.
        { field. intros Hz. discriminate Hz. }
        rewrite Hvalue. ring.
      * intros Hlt'. apply Hlt. lia.
      * intros _. destruct n as [|n]; [|apply Hge; lia].
        simpl in Hvalue. rewrite Qcmult_1_r in Hvalue. rewrite <- Hvalue.
        by apply scaled_down.
    + exists value, 0%nat. rewrite Nat.add_0_r.
      repeat split; [lia | simpl; ring | | lia].
      intros _. by apply Qcnot_le_lt.
Qed.

Section sizes.
Variable toFixed : nat → Qc → string.

(** [formatBytes] shows a finite size in the largest of the units B, KB, MB
    and GB in which it is at least 1: the number shown is the size divided
    by 1024 to the rank of the unit, below 1024 except in GB, with no
    decimal in B and one otherwise; a size that is not finite is shown as a
    dash. *)
Theorem formatBytes_unit (q : Qc) :
  ∃ (value : Qc) (index : nat) (unit : string),
    units !! index = Some unit
    ∧ formatBytes toFixed (Finite q)
      = (toFixed (if bool_decide (index = 0%nat) then 0%nat else 1%nat)
           value ++ " " ++ unit)%string
    ∧ q = (value * Qc_of_Z 1024 ^ index)%Qc
    ∧ ((index < 3)%nat → (value < Qc_of_Z 1024)%Qc)
    ∧ ((0 < index)%nat → (Qc_of_Z 1 ≤ value)%Qc)
    ∧ formatBytes toFixed NaN = "-"
    ∧ formatBytes toFixed PosInfinity = "-"
    ∧ formatBytes toFixed NegInfinity = "-".
Proof.
  destruct (scale_spec 3 q 0) as (v & n & Hscale & Hn & Hq & Hlt & Hge).
  rewrite Nat.add_0_l in Hscale.
  assert (Hunit : ∃ unit, units !! n = Some unit).
  { apply lookup_lt_is_Some. simpl. lia. }
  destruct Hunit as [unit Hunit].
  exists v, n, unit. split; [exact Hunit|]. split.
  - unfold formatBytes. change (length units - 1)%nat with 3%nat.
    rewrite Hscale. by rewrite Hunit.
  - repeat split; assumption.
Qed.

End sizes.

Lemma uploads_cons st ev evs :
  (run st (ev :: evs)).1 = (run (step st ev).1 evs).1
  ∧ (run st (ev :: evs)).2
    = option_list (step st ev).2 ++ (run (step st ev).1 evs).2.
Proof.
  simpl. destruct (step st ev) as [st' sent]. simpl.
  by destruct (run st' evs) as [st'' rest].
Qed.

(** While an upload is in flight, what is done to the form sends nothing
    and leaves the upload in flight; presses of Upload leave the selection
    alone. *)
Lemma uploads_unsettled between : ∀ st,
  Forall (λ ev, unsettled ev = true) between → isPending st = true →
  isPending (run st between).1 = true
  ∧ (run st between).2 = []
  ∧ (Forall (λ ev, press ev = true) between →
     selectedFiles (run st between).1 = selectedFiles st).
Proof.
  induction between as [|ev between IH]; intros st Hall Hp; [done|].
  apply Forall_cons in Hall as [Hev Hall].
  destruct (uploads_cons st ev between) as [-> ->].
  assert (Hstep : isPending (step st ev).1 = true ∧ (step st ev).2 = None
                  ∧ (press ev = true →
                     selectedFiles (step st ev).1 = selectedFiles st)).
  { destruct ev as [files | | | error |]; try discriminate Hev; simpl.
    - repeat split; [exact Hp | discriminate].
    - unfold handleUpload. rewrite Hp, orb_true_r. done.
    - repeat split; [exact Hp | discriminate]. }
  destruct Hstep as (Hp' & -> & Hsel).
  destruct (IH (step st ev).1 Hall Hp') as (Hp'' & -> & Hkeep).
  repeat split; [exact Hp''|].
  intros [Hpress Hrest]%Forall_cons.
  rewrite Hkeep by exact Hrest. by apply Hsel.
Qed.

(** When Upload sends files, they are the files selected, at least one, and
    until the upload settles nothing else is sent.  If the upload then
    fails, the selection and the file input stay as they are at that moment
    and the message of the failure is recorded, and shown unless it is
    empty; pressing Upload again sends the selection of that moment: the
    same files when only Upload was pressed meanwhile, other files or
    nothing when files were chosen or cleared meanwhile.  If the upload
    succeeds, the selection and the file input are emptied, whatever was
    chosen meanwhile, and pressing Upload again sends nothing. *)
Theorem upload_retry (st st1 : UploadState) (files : list File)
    (between : list Event) (error : JsError) :
  handleUpload st = (st1, Some files) →
  Forall (λ ev, unsettled ev = true) between →
  let st2 := (run st1 between).1 in
  files = selectedFiles st ∧ files ≠ []
  ∧ (run st1 between).2 = []
  ∧ isPending st2 = true
  ∧ (Forall (λ ev, press ev = true) between → selectedFiles st2 = files)
  ∧ (let failed := (step st2 (UploadFailed error)).1 in
     selectedFiles failed = selectedFiles st2
     ∧ inputFiles failed = inputFiles st2
     ∧ uploadError failed = Some (getErrorMessage error)
     ∧ (error ≠ PlainError "" →
        error_shown failed = Some (getErrorMessage error))
     ∧ (handleUpload failed).2
       = (if bool_decide (selectedFiles st2 = []) then None
          else Some (selectedFiles st2)))
  ∧ (let finished := (step st2 Uploaded).1 in
     selectedFiles finished = [] ∧ inputFiles finished = []
     ∧ uploadError finished = None
     ∧ error_shown finished = None
     ∧ (handleUpload finished).2 = None).
Proof.
  intros Hupload Hall st2.
  assert (Hsent : files = selectedFiles st ∧ files ≠ []
                  ∧ isPending st1 = true
                  ∧ selectedFiles st1 = files).
  { unfold handleUpload in Hupload.
    destruct (selectedFiles st) as [|file rest] eqn:Hsel; simpl in Hupload;
      [discriminate|].
    destruct (isPending st); [discriminate|].
    by injection Hupload as <- <-. }
  destruct Hsent as (Hfiles & Hsome & Hp1 & Hsel1).
  destruct (uploads_unsettled between st1 Hall Hp1) as (Hp & Hnone & Hkeep).
  fold st2 in Hp, Hkeep.
  split; [exact Hfiles|]. split; [exact Hsome|]. split; [exact Hnone|].
  split; [exact Hp|]. split; [by intros ->%Hkeep|].
  simpl. rewrite Hp. simpl. split.
  - repeat split.
    + intros Hne.
      pose proof (ChatPanelFacts.getErrorMessage_shown error Hne) as Hshown.
      unfold error_shown, truthy in *. simpl. by rewrite Hshown.
    + unfold handleUpload, isPending. simpl.
      destruct (selectedFiles st2); reflexivity.
  - repeat split.
Qed.

Lemma upload_retry_witness :
  let again :=
    (run (handleUpload chosen).1 [UploadPressed; UploadPressed]).1 in
  let cleared := (run (handleUpload chosen).1 [ClearPressed]).1 in
  (handleUpload (step again (UploadFailed (PlainError "offline"))).1).2
  = Some (selectedFiles chosen)
  ∧ error_shown (step again (UploadFailed (PlainError "offline"))).1
    = Some "offline"
  ∧ (handleUpload (step cleared (UploadFailed (PlainError "offline"))).1).2
    = None
  ∧ (handleUpload (step again Uploaded).1).2 = None.
Proof.
  intros again cleared. subst again cleared.
  destruct (upload_retry chosen (handleUpload chosen).1
              (selectedFiles chosen) [UploadPressed; UploadPressed]
              (PlainError "offline") eq_refl ltac:(by repeat constructor))
    as (_ & _ & _ & _ & Hsame & (_ & _ & _ & Hshown & Hretry)
        & (_ & _ & _ & _ & Hdone)).
  destruct (upload_retry chosen (handleUpload chosen).1
              (selectedFiles chosen) [ClearPressed]
              (PlainError "offline") eq_refl ltac:(by repeat constructor))
    as (_ & _ & _ & _ & _ & (_ & _ & _ & _ & Hnothing) & _).
  split; [|split; [|split]].
  - rewrite Hretry. rewrite Hsame by (by repeat constructor). reflexivity.
  - apply Hshown. discriminate.
  - rewrite Hnothing. reflexivity.
  - exact Hdone.
Defined.

End DetailPageFacts.
